(** * EmbeddingExtractor: a shallow embedding of [extract_embeddings.py]

    The Python class [EmbeddingExtractor] walks a labelled image data set,
    asks a Caffe face detector for the most confident face of each image,
    crops it and feeds it to a Torch embedding network.  The two networks,
    OpenCV and imutils are outside the repository: they appear here as the
    fields of a [World], and every method of the class is a function of the
    world, of the object and of an explicit interpreter state.

    Conventions.
    - Python exceptions are the [Raise] results of an error-and-state monad.
    - numpy arrays carry their shape and an indexing function.
    - float32/float64 values are the rationals they denote ([Q]); NaN and
      the infinities are not modelled.  A float32 times an image dimension
      (below 2^29) is exact in float64, so the product of line 188 is the
      product of [Q].
    - [astype("int")] is the conversion to a 64-bit integer of Linux and
      macOS: truncation towards zero, and the smallest int64 for a value
      out of range, as on x86-64.
    - A ghost list of events records what was printed and which external
      calls were made, in order. *)

From Stdlib Require Import ZArith QArith List String Ascii Bool Lia Arith.
From Stdlib Require Import Permutation.
Import ListNotations.

Open Scope Z_scope.

(** ** Exceptions and results *)

Inductive exn : Type :=
| AttributeError      (* attribute access on None *)
| IndexError          (* index out of range *)
| ValueError          (* argmax of an empty sequence, broadcasting, unpacking *)
| ZeroDivisionError
| Cv2Error            (* cv2.error *)
| OSError.            (* open() failed *)

Inductive result (A : Type) : Type :=
| Return (a : A)
| Raise (e : exn).

Arguments Return {A} a.
Arguments Raise {A} e.

(** ** numpy data *)

(** A BGR pixel of a uint8 image. *)
Definition pixel : Type := (Z * Z * Z)%type.

(** An image array of shape [(rows, cols, 3)]. *)
Record image : Type := mkImage {
  rows : nat;
  cols : nat;
  px : nat -> nat -> pixel
}.

(** A 4-dimensional float array, the output of the detector. *)
Record tensor4 : Type := mkTensor4 {
  dim0 : nat;
  dim1 : nat;
  dim2 : nat;
  dim3 : nat;
  at4 : nat -> nat -> nat -> nat -> Q
}.

(** A 2-dimensional float array, the output of the embedder. *)
Definition matrix : Type := list (list Q).

(** The result of [cv2.dnn.blobFromImage], kept symbolic: the blob is
    determined by the arguments of the call. *)
Record blob : Type := mkBlob {
  blob_src : image;
  blob_scalefactor : Q;
  blob_size : nat * nat;
  blob_mean : Q * Q * Q;
  blob_swapRB : bool;
  blob_crop : bool
}.

(** The dictionary pickled at the end of [ProcessFolders]. *)
Record Data : Type := mkData {
  embeddings : list (list Q);
  names : list string
}.

(** ** The world outside the repository *)

Record World : Type := mkWorld {
  (** [os.path.sep] *)
  sep : ascii;
  (** [imutils.paths.list_images]: the image files under a directory *)
  list_images : string -> list string;
  (** [cv2.imread]: [None] when the file cannot be read or decoded *)
  imread : string -> option image;
  (** [int(h * (width / float(w)))] of [imutils.resize], a float computation *)
  scaled_height : nat -> nat -> nat -> nat;
  (** the pixels [cv2.resize] computes for a target of the given rows and
      columns *)
  resample : image -> nat -> nat -> nat -> nat -> pixel;
  (** [cv2.dnn.readNetFromCaffe]: the function the loaded network computes *)
  readNetFromCaffe : string -> string -> result (blob -> tensor4);
  (** [cv2.dnn.readNetFromTorch] *)
  readNetFromTorch : string -> result (blob -> matrix);
  (** whether [open(path, "wb")] succeeds *)
  can_open : string -> bool
}.

(** ** Messages and events *)

Inductive msg : Type :=
| MsgLoadingDetector                       (* "[INFO] loading face detector..." *)
| MsgLoadingRecognizer                     (* "[INFO] loading face recognizer..." *)
| MsgQuantifying                           (* "[INFO] quantifying faces..." *)
| MsgProcessing (i n : nat)                (* "[INFO] processing image i/n" *)
| MsgFailed (imagePath : string)           (* "[INFO] Image processing failed for path: " *)
| MsgSerializing (total : nat).            (* "[INFO] serializing total encodings..." *)

Inductive event : Type :=
| EvPrint (m : msg)
| EvDetectorForward (b : blob)
| EvEmbedderForward (b : blob)
| EvExtractEmbedding (startX endX startY endY : Z).

(** ** The object and the interpreter state *)

(** The attributes of an [EmbeddingExtractor].  The two networks are
    mutable objects: what they compute is fixed at construction, their
    current input lives in the [state]. *)
Record EmbeddingExtractor : Type := mkExtractor {
  _DATASET : string;
  _EMBEDDING_OUTPUT : string;
  _DETECTOR : string;
  _EMBEDDINGMODEL : string;
  detector : blob -> tensor4;
  embedder : blob -> matrix
}.

Record state : Type := mkState {
  detector_input : option blob;
  embedder_input : option blob;
  events : list event;               (* oldest first *)
  files : list (string * Data)       (* latest write first *)
}.

Definition initial_state : state :=
  {| detector_input := None; embedder_input := None; events := []; files := [] |}.

(** ** The monad of statements *)

Definition M (A : Type) : Type := state -> result A * state.

Definition ret {A : Type} (a : A) : M A := fun s => (Return a, s).

Definition bind {A B : Type} (m : M A) (k : A -> M B) : M B :=
  fun s =>
    match m s with
    | (Return a, s') => k a s'
    | (Raise e, s') => (Raise e, s')
    end.

Definition lift {A : Type} (r : result A) : M A := fun s => (r, s).

Notation "x <- m ;; k" := (bind m (fun x => k))
  (at level 61, m at next level, right associativity).
Notation "' p <- m ;; k" := (bind m (fun x => match x with p => k end))
  (at level 61, p pattern, m at next level, right associativity).
Notation "m ;;; k" := (bind m (fun _ => k))
  (at level 61, right associativity).

Definition emit (e : event) : M unit :=
  fun s => (Return tt,
            {| detector_input := detector_input s;
               embedder_input := embedder_input s;
               events := events s ++ [e];
               files := files s |}).

Definition print (m : msg) : M unit := emit (EvPrint m).

(** [self.detector.setInput(b)] *)
Definition detector_setInput (b : blob) : M unit :=
  fun s => (Return tt,
            {| detector_input := Some b;
               embedder_input := embedder_input s;
               events := events s;
               files := files s |}).

(** [self.embedder.setInput(b)] *)
Definition embedder_setInput (b : blob) : M unit :=
  fun s => (Return tt,
            {| detector_input := detector_input s;
               embedder_input := Some b;
               events := events s;
               files := files s |}).

(** [self.detector.forward()]: the network applied to its current input. *)
Definition detector_forward (self : EmbeddingExtractor) : M tensor4 :=
  fun s =>
    match detector_input s with
    | None => (Raise Cv2Error, s)
    | Some b => (emit (EvDetectorForward b) ;;; ret (detector self b)) s
    end.

(** [self.embedder.forward()] *)
Definition embedder_forward (self : EmbeddingExtractor) : M matrix :=
  fun s =>
    match embedder_input s with
    | None => (Raise Cv2Error, s)
    | Some b => (emit (EvEmbedderForward b) ;;; ret (embedder self b)) s
    end.

(** [f = open(path, "wb"); f.write(pickle.dumps(data)); f.close()] *)
Definition write_file (W : World) (path : string) (data : Data) : M unit :=
  fun s =>
    if can_open W path then
      (Return tt,
       {| detector_input := detector_input s;
          embedder_input := embedder_input s;
          events := events s;
          files := (path, data) :: files s |})
    else (Raise OSError, s).

(** The content of a file, if it was written. *)
Fixpoint read_file (fs : list (string * Data)) (path : string) : option Data :=
  match fs with
  | [] => None
  | (p, d) :: fs' => if String.eqb p path then Some d else read_file fs' path
  end.

(** ** Python and numpy primitives *)

(** [s.split(sep)] for a one-character separator. *)
Fixpoint split (c : ascii) (s : string) : list string :=
  match s with
  | EmptyString => [EmptyString]
  | String a s' =>
      if Ascii.eqb a c then EmptyString :: split c s'
      else match split c s' with
           | [] => [String a EmptyString]
           | w :: ws => String a w :: ws
           end
  end.

(** [l[-2]] *)
Definition index_neg2 {A : Type} (l : list A) : result A :=
  match nth_error l (List.length l - 2) with
  | Some x => if (2 <=? List.length l)%nat then Return x else Raise IndexError
  | None => Raise IndexError
  end.

(** [sep.join([a, b])] *)
Definition join2 (c : ascii) (a b : string) : string :=
  (a ++ String c b)%string.

(** One bound of a slice [a[start:stop]] over an axis of length [n]:
    negative bounds count from the end, and every bound is clamped. *)
Definition slice_index (n : nat) (i : Z) : Z :=
  if i <? 0 then Z.max 0 (i + Z.of_nat n) else Z.min i (Z.of_nat n).

(** First index and length of [a[start:stop]]. *)
Definition slice_range (n : nat) (start stop : Z) : nat * nat :=
  (Z.to_nat (slice_index n start),
   Z.to_nat (slice_index n stop - slice_index n start)).

(** [image[startY:endY, startX:endX]] *)
Definition crop (im : image) (startY endY startX endX : Z) : image :=
  let (y0, fH) := slice_range (rows im) startY endY in
  let (x0, fW) := slice_range (cols im) startX endX in
  {| rows := fH; cols := fW;
     px := fun y x => px im (y0 + y)%nat (x0 + x)%nat |}.

(** [image.shape[:2]] *)
Definition shape (im : image) : nat * nat := (rows im, cols im).

Definition Qlt_bool (a b : Q) : bool := negb (Qle_bool b a).

(** [np.argmax] of a non-empty sequence: the first index of the maximum.
    [best] at index [besti] is the maximum so far, [i] the next index. *)
Fixpoint argmax_from (best : Q) (besti i : nat) (l : list Q) : nat :=
  match l with
  | [] => besti
  | x :: l' =>
      if Qlt_bool best x then argmax_from x i (S i) l'
      else argmax_from best besti (S i) l'
  end.

Definition argmax (l : list Q) : result nat :=
  match l with
  | [] => Raise ValueError
  | x :: l' => Return (argmax_from x 0%nat 1%nat l')
  end.

(** [detections[0, 0, :, 2]] *)
Definition confidences (d : tensor4) : result (list Q) :=
  if ((0 <? dim0 d) && (0 <? dim1 d) && (2 <? dim3 d))%nat
  then Return (map (fun k => at4 d 0%nat 0%nat k 2%nat) (seq 0 (dim2 d)))
  else Raise IndexError.

(** [detections[0, 0, i, 3:7]] *)
Definition box_slice (d : tensor4) (i : nat) : result (list Q) :=
  if ((0 <? dim0 d) && (0 <? dim1 d) && (i <? dim2 d))%nat
  then let (j0, n) := slice_range (dim3 d) 3 7 in
       Return (map (fun j => at4 d 0%nat 0%nat i j) (seq j0 n))
  else Raise IndexError.

(** [a * np.array([w, h, w, h])] for a one-dimensional [a]: shapes [(4,)]
    and [(1,)] broadcast, every other length is a ValueError. *)
Definition times_whwh (a : list Q) (w h : nat) : result (list Q) :=
  let qw := inject_Z (Z.of_nat w) in
  let qh := inject_Z (Z.of_nat h) in
  match a with
  | [x1; y1; x2; y2] => Return [x1 * qw; y1 * qh; x2 * qw; y2 * qh]%Q
  | [x] => Return [x * qw; x * qh; x * qw; x * qh]%Q
  | _ => Raise ValueError
  end.

(** Truncation of a rational towards zero. *)
Definition truncate (q : Q) : Z := Z.quot (Qnum q) (Zpos (Qden q)).

Definition int64_min : Z := - 2 ^ 63.

Definition int64_max : Z := 2 ^ 63 - 1.

(** Conversion of a float64 to a 64-bit integer, [astype("int")]:
    truncation towards zero when the result fits; a value out of the range
    of int64 becomes the smallest int64. *)
Definition astype_int (q : Q) : Z :=
  let t := truncate q in
  if (int64_min <=? t) && (t <=? int64_max) then t else int64_min.

(** [(startX, startY, endX, endY) = box.astype("int")] *)
Definition unpack4 (b : list Q) : result (Z * Z * Z * Z) :=
  match map astype_int b with
  | [a; b; c; d] => Return (a, b, c, d)
  | _ => Raise ValueError
  end.

(** ** OpenCV and imutils *)

(** [cv2.resize(image, (width, height))]: fails on an empty source or an
    empty target, otherwise the result has the requested shape. *)
Definition cv2_resize (W : World) (im : image) (width height : nat) : result image :=
  if ((rows im =? 0) || (cols im =? 0) || (width =? 0) || (height =? 0))%nat
  then Raise Cv2Error
  else Return {| rows := height; cols := width;
                 px := resample W im height width |}.

(** [imutils.resize(image, width=width)].  Its first statement reads
    [image.shape], which fails on [None]. *)
Definition imutils_resize (W : World) (im : option image) (width : nat) : result image :=
  match im with
  | None => Raise AttributeError
  | Some im =>
      let (h, w) := shape im in
      if (w =? 0)%nat then Raise ZeroDivisionError
      else cv2_resize W im width (scaled_height W h w width)
  end.

(** [cv2.dnn.blobFromImage(image, scalefactor, size, mean, swapRB, crop)] *)
Definition blobFromImage (im : image) (scalefactor : Q) (size : nat * nat)
    (mean : Q * Q * Q) (swapRB crop : bool) : blob :=
  {| blob_src := im; blob_scalefactor := scalefactor; blob_size := size;
     blob_mean := mean; blob_swapRB := swapRB; blob_crop := crop |}.

(** [vec.flatten()] *)
Definition flatten (v : matrix) : list Q := List.concat v.

(** ** The methods of [EmbeddingExtractor] *)

(** [__init__] *)
Definition __init__ (W : World) (Dataset EmbeddingOutput FaceDetector EmbeddingModel : string)
    : M EmbeddingExtractor :=
  let caffeProtoPath := join2 (sep W) FaceDetector "deploy.prototxt" in
  let caffeModelPath :=
    join2 (sep W) FaceDetector "res10_300x300_ssd_iter_140000.caffemodel" in
  print MsgLoadingDetector ;;;
  det <- lift (readNetFromCaffe W caffeProtoPath caffeModelPath) ;;
  print MsgLoadingRecognizer ;;;
  emb <- lift (readNetFromTorch W EmbeddingModel) ;;
  ret {| _DATASET := Dataset; _EMBEDDING_OUTPUT := EmbeddingOutput;
         _DETECTOR := FaceDetector; _EMBEDDINGMODEL := EmbeddingModel;
         detector := det; embedder := emb |}.

(** [ExtractEmbedding]: [None] for a face region under 20 pixels in either
    dimension, otherwise the output of the embedding network. *)
Definition ExtractEmbedding (self : EmbeddingExtractor) (im : image)
    (startX endX startY endY : Z) : M (option matrix) :=
  emit (EvExtractEmbedding startX endX startY endY) ;;;
  let face := crop im startY endY startX endX in
  let (fH, fW) := shape face in
  if ((fW <? 20) || (fH <? 20))%nat then ret None
  else
    let faceBlob := blobFromImage face (1 # 255) (96, 96)%nat (0, 0, 0)%Q true false in
    embedder_setInput faceBlob ;;;
    v <- embedder_forward self ;;
    ret (Some v).

(** [GetConfidence]: [detections[0, 0, element, 2]] *)
Definition GetConfidence (d : tensor4) (element : nat) : result Q :=
  if ((0 <? dim0 d) && (0 <? dim1 d) && (element <? dim2 d) && (2 <? dim3 d))%nat
  then Return (at4 d 0%nat 0%nat element 2%nat)
  else Raise IndexError.

(** [GetImage] *)
Definition GetImage (W : World) (imagePath : string) : M image :=
  let im := imread W imagePath in
  lift (imutils_resize W im 600).

(** [ProcessImage]: [None] is Python's None, [Some (vec, name)] the tuple. *)
Definition ProcessImage (W : World) (self : EmbeddingExtractor) (imagePath : string)
    : M (option (matrix * string)) :=
  name <- lift (index_neg2 (split (sep W) imagePath)) ;;
  im <- GetImage W imagePath ;;
  let (h, w) := shape im in
  small <- lift (cv2_resize W im 300 300) ;;
  let imageBlob :=
    blobFromImage small 1 (300, 300)%nat (104, 177, 123)%Q false false in
  detector_setInput imageBlob ;;;
  detections <- detector_forward self ;;
  if (0 <? dim0 detections)%nat then
    conf <- lift (confidences detections) ;;
    i <- lift (argmax conf) ;;
    confidence <- lift (GetConfidence detections i) ;;
    if Qlt_bool (1 # 2) confidence then
      sl <- lift (box_slice detections i) ;;
      box <- lift (times_whwh sl w h) ;;
      '(startX, startY, endX, endY) <- lift (unpack4 box) ;;
      vec <- ExtractEmbedding self im startX endX startY endY ;;
      match vec with
      | None => ret None
      | Some v => ret (Some (v, name))
      end
    else ret None
  else ret None.

(** The loop of [ProcessFolders] over the paths still to process; [i] is
    the index of [enumerate], [n] is [len(imagePaths)]. *)
Fixpoint loop (W : World) (self : EmbeddingExtractor) (n : nat) (i : nat)
    (imagePaths : list string)
    (knownEmbeddings : list (list Q)) (knownNames : list string) (total : nat)
    : M (list (list Q) * list string * nat) :=
  match imagePaths with
  | [] => ret (knownEmbeddings, knownNames, total)
  | imagePath :: rest =>
      print (MsgProcessing (i + 1) n) ;;;
      success <- ProcessImage W self imagePath ;;
      match success with
      | None =>
          print (MsgFailed imagePath) ;;;
          loop W self n (S i) rest knownEmbeddings knownNames total
      | Some (vec, name) =>
          loop W self n (S i) rest
            (knownEmbeddings ++ [flatten vec]) (knownNames ++ [name]) (total + 1)
      end
  end.

(** [ProcessFolders] *)
Definition ProcessFolders (W : World) (self : EmbeddingExtractor) (imageFolder : string)
    : M unit :=
  print MsgQuantifying ;;;
  let imagePaths := list_images W (_DATASET self) in
  '(knownEmbeddings, knownNames, total) <-
    loop W self (List.length imagePaths) 0 imagePaths [] [] 1 ;;
  print (MsgSerializing total) ;;;
  let data := {| embeddings := knownEmbeddings; names := knownNames |} in
  write_file W (_EMBEDDING_OUTPUT self) data.

(** ** Derived definitions used to state the properties *)

Definition rbind {A B : Type} (r : result A) (k : A -> result B) : result B :=
  match r with
  | Return a => k a
  | Raise e => Raise e
  end.

(** Lines 179-189 of [ProcessImage] as a function of the detections and of
    the shape [(h, w)] read at line 167: [None] when no detection is
    accepted, otherwise [(startX, startY, endX, endY)].
    [ProcessImage_unfold] shows that [ProcessImage] computes exactly this. *)
Definition select_face (d : tensor4) (w h : nat) : result (option (Z * Z * Z * Z)) :=
  if (0 <? dim0 d)%nat then
    rbind (confidences d) (fun conf =>
    rbind (argmax conf) (fun i =>
    rbind (GetConfidence d i) (fun confidence =>
    if Qlt_bool (1 # 2) confidence then
      rbind (box_slice d i) (fun sl =>
      rbind (times_whwh sl w h) (fun box =>
      rbind (unpack4 box) (fun b => Return (Some b))))
    else Return None)))
  else Return None.

(** The blob [ProcessImage] hands to the detector. *)
Definition detector_blob (small : image) : blob :=
  blobFromImage small 1 (300, 300)%nat (104, 177, 123)%Q false false.

(** The blob [ExtractEmbedding] hands to the embedder. *)
Definition face_blob (face : image) : blob :=
  blobFromImage face (1 # 255) (96, 96)%nat (0, 0, 0)%Q true false.

(** The state after [setInput] and [forward] of the detector. *)
Definition after_detection (b : blob) (s : state) : state :=
  {| detector_input := Some b;
     embedder_input := embedder_input s;
     events := events s ++ [EvDetectorForward b];
     files := files s |}.

(** The state [emit] leaves behind. *)
Definition emitted (e : event) (s : state) : state :=
  {| detector_input := detector_input s;
     embedder_input := embedder_input s;
     events := events s ++ [e];
     files := files s |}.

(** The state after an embedding was computed for [face]. *)
Definition after_embedding (bx : event) (face : image) (s : state) : state :=
  {| detector_input := detector_input s;
     embedder_input := Some (face_blob face);
     events := (events s ++ [bx]) ++ [EvEmbedderForward (face_blob face)];
     files := files s |}.

(** The tail of [ProcessImage], lines 192-196. *)
Definition embed_and_label (self : EmbeddingExtractor) (im : image) (name : string)
    (b : Z * Z * Z * Z) : M (option (matrix * string)) :=
  let '(startX, startY, endX, endY) := b in
  vec <- ExtractEmbedding self im startX endX startY endY ;;
  match vec with
  | None => ret None
  | Some v => ret (Some (v, name))
  end.

(** The confidence of candidate [k]: [detections[0, 0, k, 2]]. *)
Definition conf_of (d : tensor4) (k : nat) : Q := at4 d 0%nat 0%nat k 2%nat.

(** The box of candidate [k] scaled by [w] and [h] and converted to
    64-bit integers. *)
Definition scaled_box (d : tensor4) (k w h : nat) : Z * Z * Z * Z :=
  (astype_int (at4 d 0 0 k 3 * inject_Z (Z.of_nat w)),
   astype_int (at4 d 0 0 k 4 * inject_Z (Z.of_nat h)),
   astype_int (at4 d 0 0 k 5 * inject_Z (Z.of_nat w)),
   astype_int (at4 d 0 0 k 6 * inject_Z (Z.of_nat h)))%nat.

(** Number of "Image processing failed" lines among the events. *)
Fixpoint skips (evs : list event) : nat :=
  match evs with
  | [] => 0%nat
  | EvPrint (MsgFailed _) :: evs' => S (skips evs')
  | _ :: evs' => skips evs'
  end.

Definition is_embedder_forward (e : event) : bool :=
  match e with
  | EvEmbedderForward _ => true
  | _ => false
  end.

(** The boxes [ExtractEmbedding] was called with, as
    [(startX, startY, endX, endY)], in order. *)
Fixpoint boxes (evs : list event) : list (Z * Z * Z * Z) :=
  match evs with
  | [] => []
  | EvExtractEmbedding startX endX startY endY :: evs' =>
      (startX, startY, endX, endY) :: boxes evs'
  | _ :: evs' => boxes evs'
  end.

(** The images announced by "processing image i/n" lines, as [i]. *)
Fixpoint announced (evs : list event) : list nat :=
  match evs with
  | [] => []
  | EvPrint (MsgProcessing i _) :: evs' => i :: announced evs'
  | _ :: evs' => announced evs'
  end.

(** Whether a string contains the character. *)
Fixpoint contains (c : ascii) (s : string) : bool :=
  match s with
  | EmptyString => false
  | String a s' => Ascii.eqb a c || contains c s'
  end.

(** What one image yields, started from the initial state. *)
Definition outcome (W : World) (self : EmbeddingExtractor) (imagePath : string)
    : result (option (matrix * string)) :=
  fst (ProcessImage W self imagePath initial_state).

(** The pairs [(embedding, name)] a list of outcomes contributes, or the
    first exception among them. *)
Fixpoint collect (rs : list (result (option (matrix * string))))
    : result (list (list Q * string)) :=
  match rs with
  | [] => Return []
  | Raise e :: _ => Raise e
  | Return None :: rs' => collect rs'
  | Return (Some (v, name)) :: rs' =>
      rbind (collect rs') (fun l => Return ((flatten v, name) :: l))
  end.




(** The same world with another directory listing. *)
Definition with_listing (W : World) (ls : string -> list string) : World :=
  {| sep := sep W; list_images := ls; imread := imread W;
     scaled_height := scaled_height W; resample := resample W;
     readNetFromCaffe := readNetFromCaffe W;
     readNetFromTorch := readNetFromTorch W; can_open := can_open W |}.

(** ** A concrete world *)

Module Demo.

(** An image of one colour; the blue channel tags the picture. *)
Definition flat_image (r c : nat) (tag : Z) : image :=
  {| rows := r; cols := c; px := fun _ _ => (tag, 0, 0) |}.

Definition tag_of (im : image) : Z := fst (fst (px im 0%nat 0%nat)).

Definition listing (d : string) : list string :=
  if String.eqb d "data"
  then ["data/alice/a1.png"; "data/alice/a2.png"; "data/bob/b1.png"]%string
  else if String.eqb d "data2"
  then ["data/bob/b1.png"; "data/alice/a1.png"; "data/alice/a2.png"]%string
  else if String.eqb d "mixed"
  then ["mixed/bob/b1.png"; "mixed/bob/broken.png"; "mixed/bob/b2.png"]%string
  else if String.eqb d "other"
  then ["other/carol/c1.png"]%string
  else [].

(** [a1]: a 1200x800 photo; [a2]: a face too weak; [b1], [b2], [c1]: 600x400
    photos; [tiny]: a face of a few pixels; [empty]: no candidate at all;
    [edge]: a face across the right border; [broken]: not an image. *)
Definition read (p : string) : option image :=
  if String.eqb p "data/alice/a1.png" then Some (flat_image 800 1200 1)
  else if String.eqb p "data/alice/a2.png" then Some (flat_image 400 600 2)
  else if String.eqb p "data/bob/b1.png" then Some (flat_image 400 600 6)
  else if String.eqb p "mixed/bob/b1.png" then Some (flat_image 400 600 6)
  else if String.eqb p "mixed/bob/b2.png" then Some (flat_image 400 600 6)
  else if String.eqb p "other/carol/c1.png" then Some (flat_image 400 600 7)
  else if String.eqb p "data/alice/tiny.png" then Some (flat_image 400 600 3)
  else if String.eqb p "data/alice/empty.png" then Some (flat_image 400 600 4)
  else if String.eqb p "data/alice/edge.png" then Some (flat_image 400 600 5)
  else None.

(** A detection tensor of shape [(1, 1, n, 7)] from its rows. *)
Definition tensor_of_rows (rs : list (list Q)) : tensor4 :=
  {| dim0 := 1; dim1 := 1; dim2 := List.length rs; dim3 := 7;
     at4 := fun _ _ k j => nth j (nth k rs []) 0%Q |}.

Definition detect (b : blob) : tensor4 :=
  let t := tag_of (blob_src b) in
  if t =? 1 then
    tensor_of_rows [[0; 1; 3 # 10; 0; 0; 1 # 10; 1 # 10];
                    [0; 1; 9 # 10; 1 # 4; 1 # 4; 3 # 4; 3 # 4];
                    [0; 1; 9 # 10; 0; 0; 1; 1]]%Q
  else if t =? 2 then
    tensor_of_rows [[0; 1; 3 # 10; 1 # 4; 1 # 4; 3 # 4; 3 # 4]]%Q
  else if t =? 3 then
    tensor_of_rows [[0; 1; 9 # 10; 1 # 2; 1 # 2; 51 # 100; 51 # 100]]%Q
  else if t =? 4 then
    tensor_of_rows []
  else if t =? 5 then
    tensor_of_rows [[0; 1; 9 # 10; 5 # 6; 1 # 4; 7 # 6; 3 # 4]]%Q
  else
    tensor_of_rows [[0; 1; 8 # 10; 1 # 4; 1 # 4; 3 # 4; 3 # 4]]%Q.

(** A stand-in for the 128 numbers: the tag and the size of the face. *)
Definition embed (b : blob) : matrix :=
  [[inject_Z (tag_of (blob_src b));
    inject_Z (Z.of_nat (rows (blob_src b)));
    inject_Z (Z.of_nat (cols (blob_src b)))]].

Definition world : World :=
  {| sep := "/"%char;
     list_images := listing;
     imread := read;
     scaled_height := fun h w width => (h * width / w)%nat;
     resample := fun im h w y x =>
       px im (y * rows im / h)%nat (x * cols im / w)%nat;
     readNetFromCaffe := fun _ _ => Return detect;
     readNetFromTorch := fun _ => Return embed;
     can_open := fun p => String.eqb p "out.pickle" |}.

Definition extractor (dataset : string) : EmbeddingExtractor :=
  {| _DATASET := dataset; _EMBEDDING_OUTPUT := "out.pickle";
     _DETECTOR := "model"; _EMBEDDINGMODEL := "openface.t7";
     detector := detect; embedder := embed |}.

(** The image [GetImage] returns for a path, the copy handed to the
    detector, and the detections it yields. *)
Definition resized (p : string) : image :=
  match imutils_resize world (imread world p) 600 with
  | Return im => im
  | Raise _ => flat_image 0 0 0
  end.

Definition small (p : string) : image :=
  match cv2_resize world (resized p) 300 300 with
  | Return im => im
  | Raise _ => flat_image 0 0 0
  end.

Definition detections (p : string) : tensor4 :=
  detect (detector_blob (small p)).

End Demo.

(** ** Traces of a batch *)

(** The events one image appends, read off a run from the initial state. *)
Definition trace (W : World) (self : EmbeddingExtractor) (imagePath : string)
    : list event :=
  events (snd (ProcessImage W self imagePath initial_state)).

(** The events the loop of [ProcessFolders] appends: for each image its
    progress line, its own events and, when it yields None, the failure
    line; nothing after the first exception. *)
Fixpoint loop_trace (W : World) (self : EmbeddingExtractor) (n i : nat)
    (imagePaths : list string) : list event :=
  match imagePaths with
  | [] => []
  | imagePath :: rest =>
      EvPrint (MsgProcessing (i + 1) n) :: trace W self imagePath ++
      match outcome W self imagePath with
      | Raise _ => []
      | Return None => EvPrint (MsgFailed imagePath) :: loop_trace W self n (S i) rest
      | Return (Some _) => loop_trace W self n (S i) rest
      end
  end.

(** What one outcome adds to the output. *)
Definition contribution (r : result (option (matrix * string)))
    : list (list Q * string) :=
  match r with
  | Return (Some (v, name)) => [(flatten v, name)]
  | _ => []
  end.

(** The (embedding, name) pairs of the images that yield one, in the order
    of the paths. *)
Definition successes (W : World) (self : EmbeddingExtractor) (imagePaths : list string)
    : list (list Q * string) :=
  flat_map (fun p => contribution (outcome W self p)) imagePaths.

Definition is_detector_forward (e : event) : bool :=
  match e with
  | EvDetectorForward _ => true
  | _ => false
  end.

(** Whether an outcome is a returned value, None included. *)
Definition returns {A : Type} (r : result A) : Prop :=
  match r with
  | Return _ => True
  | Raise _ => False
  end.

(** The same object writing somewhere else. *)
Definition with_output (self : EmbeddingExtractor) (out : string) : EmbeddingExtractor :=
  {| _DATASET := _DATASET self; _EMBEDDING_OUTPUT := out;
     _DETECTOR := _DETECTOR self; _EMBEDDINGMODEL := _EMBEDDINGMODEL self;
     detector := detector self; embedder := embedder self |}.

(** ** A world in which things fail *)

Module Edge.

(** The detector loads from the directory ["model"] only, the embedder
    from ["openface.t7"] only. *)
Definition world : World :=
  {| sep := sep Demo.world;
     list_images := list_images Demo.world;
     imread := imread Demo.world;
     scaled_height := scaled_height Demo.world;
     resample := resample Demo.world;
     readNetFromCaffe := fun proto weights =>
       if (String.eqb proto "model/deploy.prototxt"
           && String.eqb weights "model/res10_300x300_ssd_iter_140000.caffemodel")%bool
       then Return Demo.detect else Raise Cv2Error;
     readNetFromTorch := fun path =>
       if String.eqb path "openface.t7" then Return Demo.embed else Raise Cv2Error;
     can_open := can_open Demo.world |}.

(** An extractor whose output lies in a directory that does not exist. *)
Definition lost_output : EmbeddingExtractor :=
  with_output (Demo.extractor "data") "missing/out.pickle".

(** What the detector returns when it keeps no detection: its 200 rows,
    all zero. *)
Definition nothing_kept : tensor4 :=
  Demo.tensor_of_rows (repeat [0; 0; 0; 0; 0; 0; 0]%Q 200).

(** An extractor whose detector never finds a face. *)
Definition blind : EmbeddingExtractor :=
  {| _DATASET := "data"; _EMBEDDING_OUTPUT := "out.pickle";
     _DETECTOR := "model"; _EMBEDDINGMODEL := "openface.t7";
     detector := fun _ => nothing_kept; embedder := Demo.embed |}.


End Edge.

(** * Properties *)

(** ** Running the methods symbolically *)

Lemma bind_Return {A B : Type} (m : M A) (k : A -> M B) (s s' : state) (a : A) :
  m s = (Return a, s') -> bind m k s = k a s'.
Proof. intros H. unfold bind. rewrite H. reflexivity. Qed.

Lemma bind_Raise {A B : Type} (m : M A) (k : A -> M B) (s s' : state) (e : exn) :
  m s = (Raise e, s') -> bind m k s = (Raise e, s').
Proof. intros H. unfold bind. rewrite H. reflexivity. Qed.

(** [ExtractEmbedding] in closed form: the size guard decides everything. *)
Lemma ExtractEmbedding_run self im startX endX startY endY s :
  ExtractEmbedding self im startX endX startY endY s =
    let face := crop im startY endY startX endX in
    let bx := EvExtractEmbedding startX endX startY endY in
    if ((cols face <? 20) || (rows face <? 20))%nat
    then (Return None, emitted bx s)
    else (Return (Some (embedder self (face_blob face))),
          after_embedding bx face s).
Proof.
  unfold ExtractEmbedding, bind, emit, shape. cbn zeta.
  destruct ((cols (crop im startY endY startX endX) <? 20)
            || (rows (crop im startY endY startX endX) <? 20))%nat; reflexivity.
Qed.

(** [ProcessImage] up to the call of [ExtractEmbedding]. *)
Lemma ProcessImage_unfold W self p s name im small :
  index_neg2 (split (sep W) p) = Return name ->
  imutils_resize W (imread W p) 600 = Return im ->
  cv2_resize W im 300 300 = Return small ->
  ProcessImage W self p s =
    match select_face (detector self (detector_blob small)) (cols im) (rows im) with
    | Raise e => (Raise e, after_detection (detector_blob small) s)
    | Return None => (Return None, after_detection (detector_blob small) s)
    | Return (Some b) =>
        embed_and_label self im name b (after_detection (detector_blob small) s)
    end.
Proof.
  intros Hn Hi Hs.
  unfold ProcessImage, GetImage, bind, lift, shape. rewrite Hn, Hi, Hs.
  cbn [detector_setInput detector_forward detector_input emit ret bind].
  fold (detector_blob small). unfold bind, emit, ret. cbn [fst snd].
  change {| detector_input := Some (detector_blob small);
            embedder_input := embedder_input s;
            events := events s ++ [EvDetectorForward (detector_blob small)];
            files := files s |}
    with (after_detection (detector_blob small) s).
  unfold select_face.
  destruct (0 <? dim0 (detector self (detector_blob small)))%nat; [|reflexivity].
  destruct (confidences _) as [conf|e]; [|reflexivity]. cbn [rbind].
  destruct (argmax conf) as [i|e]; [|reflexivity]. cbn [rbind].
  destruct (GetConfidence _ i) as [c|e]; [|reflexivity]. cbn [rbind].
  destruct (Qlt_bool (1 # 2) c); [|reflexivity].
  destruct (box_slice _ i) as [sl|e]; [|reflexivity]. cbn [rbind].
  destruct (times_whwh sl _ _) as [box|e]; [|reflexivity]. cbn [rbind].
  destruct (unpack4 box) as [[[[sx sy] ex'] ey]|e]; reflexivity.
Qed.

(** ** The crop and its size guard *)

Lemma crop_rows im startY endY startX endX :
  rows (crop im startY endY startX endX) =
  Z.to_nat (slice_index (rows im) endY - slice_index (rows im) startY).
Proof. reflexivity. Qed.

Lemma crop_cols im startY endY startX endX :
  cols (crop im startY endY startX endX) =
  Z.to_nat (slice_index (cols im) endX - slice_index (cols im) startX).
Proof. reflexivity. Qed.

Lemma slice_index_bounds n i : 0 <= slice_index n i <= Z.of_nat n.
Proof. unfold slice_index. destruct (Z.ltb_spec i 0); lia. Qed.

(** A slice never has more elements than the axis. *)
Lemma slice_length_le n start stop :
  (Z.to_nat (slice_index n stop - slice_index n start) <= n)%nat.
Proof.
  pose proof (slice_index_bounds n start). pose proof (slice_index_bounds n stop). lia.
Qed.

(** A slice whose bounds have the same sign and do not increase is empty. *)
Lemma slice_empty n start stop :
  stop <= start -> 0 <= stop \/ start < 0 ->
  Z.to_nat (slice_index n stop - slice_index n start) = 0%nat.
Proof.
  intros Hle Hs. unfold slice_index.
  destruct (Z.ltb_spec stop 0), (Z.ltb_spec start 0); lia.
Qed.

Lemma guard_true_iff (fW fH : nat) :
  ((fW <? 20) || (fH <? 20))%nat = true <-> (fW < 20 \/ fH < 20)%nat.
Proof.
  rewrite orb_true_iff, !Nat.ltb_lt. reflexivity.
Qed.

Lemma guard_false_iff (fW fH : nat) :
  ((fW <? 20) || (fH <? 20))%nat = false <-> (20 <= fW /\ 20 <= fH)%nat.
Proof.
  rewrite orb_false_iff, !Nat.ltb_ge. reflexivity.
Qed.

(** [ExtractEmbedding] on a region under 20 pixels. *)
Lemma ExtractEmbedding_small self im startX endX startY endY s :
  (cols (crop im startY endY startX endX) < 20
   \/ rows (crop im startY endY startX endX) < 20)%nat ->
  ExtractEmbedding self im startX endX startY endY s =
    (Return None, emitted (EvExtractEmbedding startX endX startY endY) s).
Proof.
  intros H. rewrite ExtractEmbedding_run. cbn zeta.
  apply guard_true_iff in H. rewrite H. reflexivity.
Qed.

(** [ExtractEmbedding] on a region of at least 20 by 20 pixels. *)
Lemma ExtractEmbedding_large self im startX endX startY endY s :
  (20 <= cols (crop im startY endY startX endX)
   /\ 20 <= rows (crop im startY endY startX endX))%nat ->
  ExtractEmbedding self im startX endX startY endY s =
    (Return (Some (embedder self (face_blob (crop im startY endY startX endX)))),
     after_embedding (EvExtractEmbedding startX endX startY endY)
       (crop im startY endY startX endX) s).
Proof.
  intros H. rewrite ExtractEmbedding_run. cbn zeta.
  apply guard_false_iff in H. rewrite H. reflexivity.
Qed.

(** C5: when the cropped region is under 20 pixels wide or high,
    [ExtractEmbedding] returns None and adds no forward pass of the
    embedder to the events, and a [ProcessImage] that accepted this box
    returns None; when both dimensions are at least 20 the embedder is run
    on the blob of the crop and its output is returned. *)
Theorem small_crop_is_rejected W self im startX endX startY endY :
  let face := crop im startY endY startX endX in
  let bx := EvExtractEmbedding startX endX startY endY in
  ((cols face < 20 \/ rows face < 20)%nat ->
     (forall s,
        fst (ExtractEmbedding self im startX endX startY endY s) = Return None /\
        events (snd (ExtractEmbedding self im startX endX startY endY s))
          = events s ++ [bx] /\
        embedder_input (snd (ExtractEmbedding self im startX endX startY endY s))
          = embedder_input s) /\
     (forall p name small s,
        index_neg2 (split (sep W) p) = Return name ->
        imutils_resize W (imread W p) 600 = Return im ->
        cv2_resize W im 300 300 = Return small ->
        select_face (detector self (detector_blob small)) (cols im) (rows im)
          = Return (Some (startX, startY, endX, endY)) ->
        fst (ProcessImage W self p s) = Return None /\
        events (snd (ProcessImage W self p s))
          = events s ++ [EvDetectorForward (detector_blob small); bx]))
  /\
  ((20 <= cols face /\ 20 <= rows face)%nat ->
     forall s,
       fst (ExtractEmbedding self im startX endX startY endY s)
         = Return (Some (embedder self (face_blob face))) /\
       events (snd (ExtractEmbedding self im startX endX startY endY s))
         = events s ++ [bx; EvEmbedderForward (face_blob face)]).
Proof.
  cbn zeta. split.
  - intros Hsmall. split.
    + intros s. rewrite ExtractEmbedding_small by exact Hsmall.
      repeat split.
    + intros p name small s Hn Hi Hs Hsel.
      rewrite (ProcessImage_unfold W self p s name im small Hn Hi Hs), Hsel.
      unfold embed_and_label, bind.
      rewrite ExtractEmbedding_small by exact Hsmall.
      cbn. rewrite <- app_assoc. split; reflexivity.
  - intros Hlarge s. rewrite ExtractEmbedding_large by exact Hlarge.
    cbn. rewrite <- app_assoc. split; reflexivity.
Qed.

(** C10, as the code has it: [ExtractEmbedding] raises for no box at all;
    it returns None exactly when the clamped slice is under 20 pixels wide or
    high; this is so for every box that is degenerate or inverted on an axis
    whose two bounds have the same sign, and then the embedder is not run.
    The slice never exceeds the image. *)
Theorem ExtractEmbedding_never_raises self im startX endX startY endY s :
  let face := crop im startY endY startX endX in
  let r := ExtractEmbedding self im startX endX startY endY s in
  (exists v, fst r = Return v) /\
  (fst r = Return None <-> (cols face < 20 \/ rows face < 20)%nat) /\
  ((endX <= startX /\ (0 <= endX \/ startX < 0))
   \/ (endY <= startY /\ (0 <= endY \/ startY < 0)) ->
   fst r = Return None /\
   events (snd r) = events s ++ [EvExtractEmbedding startX endX startY endY]) /\
  (rows face <= rows im /\ cols face <= cols im)%nat.
Proof.
  cbn zeta.
  assert (Hcase :
    (cols (crop im startY endY startX endX) < 20
     \/ rows (crop im startY endY startX endX) < 20)%nat
    \/ (20 <= cols (crop im startY endY startX endX)
        /\ 20 <= rows (crop im startY endY startX endX))%nat) by lia.
  repeat split.
  - destruct Hcase as [H|H].
    + rewrite ExtractEmbedding_small by exact H. eexists; reflexivity.
    + rewrite ExtractEmbedding_large by exact H. eexists; reflexivity.
  - intros Hr. destruct Hcase as [H|H]; [exact H|].
    rewrite ExtractEmbedding_large in Hr by exact H. discriminate Hr.
  - intros H. rewrite ExtractEmbedding_small by exact H. reflexivity.
  - rewrite ExtractEmbedding_small; [reflexivity|].
    rewrite crop_cols, crop_rows.
    destruct H as [[Hle Hs]|[Hle Hs]].
    + left. rewrite (slice_empty _ _ _ Hle Hs). lia.
    + right. rewrite (slice_empty _ _ _ Hle Hs). lia.
  - rewrite ExtractEmbedding_small; [reflexivity|].
    rewrite crop_cols, crop_rows.
    destruct H as [[Hle Hs]|[Hle Hs]].
    + left. rewrite (slice_empty _ _ _ Hle Hs). lia.
    + right. rewrite (slice_empty _ _ _ Hle Hs). lia.
  - rewrite crop_rows. apply slice_length_le.
  - rewrite crop_cols. apply slice_length_le.
Qed.

(** ** Paths and labels *)

Lemma append_nil_r (s : string) : (s ++ "")%string = s.
Proof. induction s as [|a s IH]; simpl; [reflexivity | now rewrite IH]. Qed.


Lemma split_nonempty c s : split c s <> [].
Proof.
  destruct s as [|a s]; simpl; [discriminate|].
  destruct (Ascii.eqb a c); [discriminate|].
  destruct (split c s); discriminate.
Qed.








(** Exceptions before the detector runs leave the state alone. *)
Lemma ProcessImage_no_name W self p s e :
  index_neg2 (split (sep W) p) = Raise e ->
  ProcessImage W self p s = (Raise e, s).
Proof.
  intros H. unfold ProcessImage, bind, lift. rewrite H. reflexivity.
Qed.

Lemma ProcessImage_no_image W self p s name e :
  index_neg2 (split (sep W) p) = Return name ->
  imutils_resize W (imread W p) 600 = Raise e ->
  ProcessImage W self p s = (Raise e, s).
Proof.
  intros Hn H. unfold ProcessImage, GetImage, bind, lift. rewrite Hn, H. reflexivity.
Qed.

Lemma ProcessImage_no_resize W self p s name im e :
  index_neg2 (split (sep W) p) = Return name ->
  imutils_resize W (imread W p) 600 = Return im ->
  cv2_resize W im 300 300 = Raise e ->
  ProcessImage W self p s = (Raise e, s).
Proof.
  intros Hn Hi H. unfold ProcessImage, GetImage, bind, lift, shape.
  rewrite Hn, Hi, H. reflexivity.
Qed.

(** The tail of [ProcessImage] in closed form. *)
Lemma embed_and_label_run self im name b s :
  let '(startX, startY, endX, endY) := b in
  let face := crop im startY endY startX endX in
  let bx := EvExtractEmbedding startX endX startY endY in
  embed_and_label self im name b s =
    if ((cols face <? 20) || (rows face <? 20))%nat
    then (Return None, emitted bx s)
    else (Return (Some (embedder self (face_blob face), name)),
          after_embedding bx face s).
Proof.
  destruct b as [[[startX startY] endX] endY]. cbn zeta.
  unfold embed_and_label, bind. rewrite ExtractEmbedding_run. cbn zeta.
  destruct ((cols (crop im startY endY startX endX) <? 20)
            || (rows (crop im startY endY startX endX) <? 20))%nat; reflexivity.
Qed.


(** ** Selection of the most confident candidate *)

Lemma Qlt_bool_true (a b : Q) : Qlt_bool a b = true <-> (a < b)%Q.
Proof.
  unfold Qlt_bool. rewrite negb_true_iff. split.
  - intros H. apply Qnot_le_lt. intros Hle.
    apply Qle_bool_iff in Hle. congruence.
  - intros H. destruct (Qle_bool b a) eqn:E; [|reflexivity].
    apply Qle_bool_iff in E. exfalso. exact (Qlt_not_le _ _ H E).
Qed.

Lemma Qlt_bool_false (a b : Q) : Qlt_bool a b = false <-> (b <= a)%Q.
Proof.
  unfold Qlt_bool. rewrite negb_false_iff. apply Qle_bool_iff.
Qed.

(** The invariant of the scan: [best] sits at [besti] in the part already
    seen, nothing seen is larger, and everything before [besti] is smaller. *)
Lemma argmax_from_spec (l pre : list Q) (best : Q) (besti : nat) :
  (besti < List.length pre)%nat ->
  nth besti pre 0%Q = best ->
  (forall j, (j < List.length pre)%nat -> (nth j pre 0 <= best)%Q) ->
  (forall j, (j < besti)%nat -> (nth j pre 0 < best)%Q) ->
  let r := argmax_from best besti (List.length pre) l in
  (r < List.length (pre ++ l))%nat /\
  (forall j, (j < List.length (pre ++ l))%nat ->
     (nth j (pre ++ l) 0 <= nth r (pre ++ l) 0)%Q) /\
  (forall j, (j < r)%nat -> (nth j (pre ++ l) 0 < nth r (pre ++ l) 0)%Q).
Proof.
  revert pre best besti.
  induction l as [|x l IH]; intros pre best besti Hi Hb Hmax Hfirst; cbn zeta.
  - cbn [argmax_from]. rewrite app_nil_r. rewrite Hb. auto.
  - cbn [argmax_from].
    assert (Hlen : List.length (pre ++ [x]) = S (List.length pre))
      by (rewrite length_app; cbn; lia).
    assert (Hold : forall j, (j < List.length pre)%nat ->
                     nth j (pre ++ [x]) 0%Q = nth j pre 0%Q)
      by (intros j Hj; now rewrite app_nth1).
    assert (Hnew : nth (List.length pre) (pre ++ [x]) 0%Q = x)
      by (rewrite app_nth2, Nat.sub_diag by lia; reflexivity).
    replace (pre ++ x :: l) with ((pre ++ [x]) ++ l)
      by (rewrite <- app_assoc; reflexivity).
    rewrite <- Hlen.
    destruct (Qlt_bool best x) eqn:E.
    + apply Qlt_bool_true in E.
      apply (IH (pre ++ [x]) x (List.length pre)).
      * lia.
      * exact Hnew.
      * intros j Hj. rewrite Hlen in Hj.
        destruct (Nat.eq_dec j (List.length pre)) as [->|Hne].
        -- rewrite Hnew. apply Qle_refl.
        -- rewrite Hold by lia. apply Qlt_le_weak.
           eapply Qle_lt_trans; [apply Hmax; lia | exact E].
      * intros j Hj. rewrite Hold by lia.
        eapply Qle_lt_trans; [apply Hmax; lia | exact E].
    + apply Qlt_bool_false in E.
      apply (IH (pre ++ [x]) best besti).
      * lia.
      * rewrite Hold by lia. exact Hb.
      * intros j Hj. rewrite Hlen in Hj.
        destruct (Nat.eq_dec j (List.length pre)) as [->|Hne].
        -- rewrite Hnew. exact E.
        -- rewrite Hold by lia. apply Hmax. lia.
      * intros j Hj. rewrite Hold by lia. apply Hfirst. exact Hj.
Qed.

(** [np.argmax] returns the first index at which the maximum is reached. *)
Lemma argmax_spec (l : list Q) :
  l <> [] ->
  exists i, argmax l = Return i /\
    (i < List.length l)%nat /\
    (forall j, (j < List.length l)%nat -> (nth j l 0 <= nth i l 0)%Q) /\
    (forall j, (j < i)%nat -> (nth j l 0 < nth i l 0)%Q).
Proof.
  destruct l as [|x l]; [congruence|]. intros _.
  exists (argmax_from x 0%nat 1%nat l). split; [reflexivity|].
  apply (argmax_from_spec l [x] x 0%nat).
  - cbn. lia.
  - reflexivity.
  - intros j Hj. cbn in Hj. replace j with 0%nat by lia. apply Qle_refl.
  - intros j Hj. lia.
Qed.

Lemma nth_confidences (d : tensor4) (j : nat) :
  (j < dim2 d)%nat ->
  nth j (map (conf_of d) (seq 0 (dim2 d))) 0%Q = conf_of d j.
Proof.
  intros Hj.
  rewrite (nth_indep _ 0%Q (conf_of d 0%nat)) by (now rewrite length_map, length_seq).
  rewrite map_nth, seq_nth by exact Hj. reflexivity.
Qed.

Lemma slice_range_3_7 (n : nat) : (7 <= n)%nat -> slice_range n 3 7 = (3%nat, 4%nat).
Proof.
  intros H. unfold slice_range, slice_index. cbn [Z.ltb Z.compare].
  rewrite !Z.min_l by lia. reflexivity.
Qed.

(** On a tensor with at least one candidate, [select_face] compares the
    confidence of the first candidate of maximal confidence with 0.5 and
    reads the box of that candidate only. *)
Lemma select_face_confidence (d : tensor4) (w h : nat) :
  (0 < dim0 d)%nat -> (0 < dim1 d)%nat -> (0 < dim2 d)%nat -> (2 < dim3 d)%nat ->
  exists i,
    (i < dim2 d)%nat /\
    (forall j, (j < dim2 d)%nat -> (conf_of d j <= conf_of d i)%Q) /\
    (forall j, (j < i)%nat -> (conf_of d j < conf_of d i)%Q) /\
    select_face d w h =
      if Qlt_bool (1 # 2) (conf_of d i)
      then rbind (box_slice d i) (fun sl =>
           rbind (times_whwh sl w h) (fun box =>
           rbind (unpack4 box) (fun b => Return (Some b))))
      else Return None.
Proof.
  intros H0 H1 H2 H3.
  apply Nat.ltb_lt in H0, H1, H3.
  assert (Hc : confidences d = Return (map (conf_of d) (seq 0 (dim2 d)))).
  { unfold confidences. rewrite H0, H1, H3. reflexivity. }
  destruct (argmax_spec (map (conf_of d) (seq 0 (dim2 d))))
    as (i & Ha & Hi & Hmax & Hfirst).
  { destruct (dim2 d); [lia | discriminate]. }
  rewrite length_map, length_seq in Hi, Hmax.
  exists i. split; [exact Hi|]. split; [|split].
  - intros j Hj. specialize (Hmax j Hj).
    rewrite !nth_confidences in Hmax by assumption. exact Hmax.
  - intros j Hj. specialize (Hfirst j Hj).
    rewrite !nth_confidences in Hfirst by lia. exact Hfirst.
  - unfold select_face. rewrite H0, Hc. cbn [rbind].
    rewrite Ha. cbn [rbind].
    unfold GetConfidence.
    apply Nat.ltb_lt in Hi. rewrite H0, H1, Hi, H3. cbn [andb rbind].
    reflexivity.
Qed.

Lemma box_slice_scaled (d : tensor4) (i w h : nat) :
  (0 < dim0 d)%nat -> (0 < dim1 d)%nat -> (i < dim2 d)%nat -> (7 <= dim3 d)%nat ->
  rbind (box_slice d i) (fun sl =>
  rbind (times_whwh sl w h) (fun box =>
  rbind (unpack4 box) (fun b => Return (Some b))))
  = Return (Some (scaled_box d i w h)).
Proof.
  intros H0 H1 Hi H3. unfold box_slice.
  apply Nat.ltb_lt in H0, H1, Hi. rewrite H0, H1, Hi. cbn [andb].
  rewrite slice_range_3_7 by exact H3. reflexivity.
Qed.

Lemma select_face_argmax (d : tensor4) (w h : nat) :
  (0 < dim0 d)%nat -> (0 < dim1 d)%nat -> (0 < dim2 d)%nat -> (7 <= dim3 d)%nat ->
  exists i,
    (i < dim2 d)%nat /\
    (forall j, (j < dim2 d)%nat -> (conf_of d j <= conf_of d i)%Q) /\
    (forall j, (j < i)%nat -> (conf_of d j < conf_of d i)%Q) /\
    select_face d w h =
      if Qlt_bool (1 # 2) (conf_of d i)
      then Return (Some (scaled_box d i w h))
      else Return None.
Proof.
  intros H0 H1 H2 H3.
  destruct (select_face_confidence d w h H0 H1 H2) as (i & Hi & Hmax & Hfirst & E);
    [lia|].
  exists i. repeat (split; [assumption|]).
  rewrite E, box_slice_scaled by assumption. reflexivity.
Qed.

(** What an accepted box tells about the tensor it came from. *)
Lemma select_face_accepts (d : tensor4) (w h : nat) (b : Z * Z * Z * Z) :
  (7 <= dim3 d)%nat ->
  select_face d w h = Return (Some b) ->
  exists i,
    (i < dim2 d)%nat /\
    (forall j, (j < dim2 d)%nat -> (conf_of d j <= conf_of d i)%Q) /\
    (1 # 2 < conf_of d i)%Q /\
    b = scaled_box d i w h.
Proof.
  intros H3 H. pose proof H as Hsel.
  assert (H0 : (0 < dim0 d)%nat).
  { unfold select_face in H. destruct (Nat.ltb_spec 0 (dim0 d)); [assumption|discriminate]. }
  unfold select_face in H. pose proof H0 as H0'. apply Nat.ltb_lt in H0'.
  rewrite H0' in H. unfold confidences in H. rewrite H0' in H. cbn [andb] in H.
  assert (H1 : (0 < dim1 d)%nat).
  { destruct (Nat.ltb_spec 0 (dim1 d)); [assumption|discriminate]. }
  assert (H2 : (0 < dim2 d)%nat).
  { destruct ((0 <? dim1 d) && (2 <? dim3 d))%nat; [|discriminate].
    cbn [rbind] in H. destruct (dim2 d); [discriminate H | lia]. }
  clear H H0'.
  destruct (select_face_argmax d w h H0 H1 H2 H3) as (i & Hi & Hmax & _ & E).
  exists i. rewrite E in Hsel.
  destruct (Qlt_bool (1 # 2) (conf_of d i)) eqn:Eq; [|discriminate].
  apply Qlt_bool_true in Eq. injection Hsel as <-. auto.
Qed.

(** The shape of the image [GetImage] returns. *)
Lemma imutils_resize_shape W im0 width im :
  imutils_resize W (Some im0) width = Return im ->
  cols im = width /\ rows im = scaled_height W (rows im0) (cols im0) width.
Proof.
  unfold imutils_resize, shape, cv2_resize. intros H.
  destruct (cols im0 =? 0)%nat; [discriminate|].
  destruct ((rows im0 =? 0) || _ || _ || _)%nat; [discriminate|].
  injection H as <-. split; reflexivity.
Qed.

(** Box events among the events, as [(startX, startY, endX, endY)]. *)
Lemma In_events_after_embed self im name b s :
  let '(startX, startY, endX, endY) := b in
  In (EvExtractEmbedding startX endX startY endY)
     (events (snd (embed_and_label self im name b s))).
Proof.
  pose proof (embed_and_label_run self im name b s) as R.
  destruct b as [[[sx sy] ex] ey]. cbn zeta in R. rewrite R.
  destruct ((cols _ <? 20) || (rows _ <? 20))%nat; cbn [snd events emitted after_embedding].
  - apply in_or_app. right. left. reflexivity.
  - apply in_or_app. left. apply in_or_app. right. left. reflexivity.
Qed.

(** C7: when the detector returns at least one candidate, [ProcessImage]
    selects the index [i] of the first candidate whose confidence is
    maximal over all candidates, and what it does next is a function of
    the confidence and of the box of candidate [i] alone: the threshold
    test reads [conf_of d i], the crop is made at [scaled_box d i]. *)
Theorem most_confident_candidate_is_selected W self p s name im small :
  index_neg2 (split (sep W) p) = Return name ->
  imutils_resize W (imread W p) 600 = Return im ->
  cv2_resize W im 300 300 = Return small ->
  let d := detector self (detector_blob small) in
  (0 < dim0 d)%nat -> (0 < dim1 d)%nat -> (0 < dim2 d)%nat -> (7 <= dim3 d)%nat ->
  exists i,
    argmax (map (conf_of d) (seq 0 (dim2 d))) = Return i /\
    (i < dim2 d)%nat /\
    (forall j, (j < dim2 d)%nat -> (conf_of d j <= conf_of d i)%Q) /\
    (forall j, (j < i)%nat -> (conf_of d j < conf_of d i)%Q) /\
    ProcessImage W self p s =
      if Qlt_bool (1 # 2) (conf_of d i)
      then embed_and_label self im name (scaled_box d i (cols im) (rows im))
             (after_detection (detector_blob small) s)
      else (Return None, after_detection (detector_blob small) s).
Proof.
  intros Hn Hi Hs d H0 H1 H2 H3.
  destruct (argmax_spec (map (conf_of d) (seq 0 (dim2 d))))
    as (i & Ha & Hlt & Hmax & Hfirst).
  { destruct (dim2 d); [lia | discriminate]. }
  rewrite length_map, length_seq in Hlt, Hmax.
  exists i. split; [exact Ha|]. split; [exact Hlt|]. split; [|split].
  - intros j Hj. specialize (Hmax j Hj).
    rewrite !nth_confidences in Hmax by assumption. exact Hmax.
  - intros j Hj. specialize (Hfirst j Hj).
    rewrite !nth_confidences in Hfirst by lia. exact Hfirst.
  - rewrite (ProcessImage_unfold W self p s name im small Hn Hi Hs). fold d.
    unfold select_face.
    assert (Hc : confidences d = Return (map (conf_of d) (seq 0 (dim2 d)))).
    { unfold confidences. apply Nat.ltb_lt in H0, H1. rewrite H0, H1.
      assert (H3' : (2 <? dim3 d)%nat = true) by (apply Nat.ltb_lt; lia).
      rewrite H3'. reflexivity. }
    pose proof H0 as H0'. apply Nat.ltb_lt in H0'. rewrite H0', Hc. cbn [rbind].
    rewrite Ha. cbn [rbind]. unfold GetConfidence.
    pose proof H1 as H1'. pose proof Hlt as Hlt'.
    apply Nat.ltb_lt in H1', Hlt'. rewrite H0', H1', Hlt'.
    assert (H3' : (2 <? dim3 d)%nat = true) by (apply Nat.ltb_lt; lia).
    rewrite H3'. cbn [andb rbind]. fold (conf_of d i).
    destruct (Qlt_bool (1 # 2) (conf_of d i)); [|reflexivity].
    rewrite box_slice_scaled by assumption. reflexivity.
Qed.

(** C8, as the code has it: the normalized box is multiplied by the width
    and the height of the image [GetImage] returned, that is the copy
    already resized to a width of 600 pixels (its height scaled with it),
    taken before the 300x300 resize for the detector; the crop is made at
    these coordinates in that same 600-wide image. *)
Theorem box_is_scaled_by_resized_shape W self p s name im0 im small b :
  index_neg2 (split (sep W) p) = Return name ->
  imread W p = Some im0 ->
  imutils_resize W (Some im0) 600 = Return im ->
  cv2_resize W im 300 300 = Return small ->
  let d := detector self (detector_blob small) in
  (7 <= dim3 d)%nat ->
  select_face d (cols im) (rows im) = Return (Some b) ->
  cols im = 600%nat /\
  rows im = scaled_height W (rows im0) (cols im0) 600 /\
  (exists i, (i < dim2 d)%nat /\
     b = scaled_box d i 600 (scaled_height W (rows im0) (cols im0) 600)) /\
  ProcessImage W self p s =
    embed_and_label self im name b (after_detection (detector_blob small) s) /\
  let '(startX, startY, endX, endY) := b in
  In (EvExtractEmbedding startX endX startY endY)
     (events (snd (ProcessImage W self p s))).
Proof.
  intros Hn Hr Hi Hs d H3 Hsel.
  destruct (imutils_resize_shape W im0 600 im Hi) as [Hc Hrows].
  split; [exact Hc|]. split; [exact Hrows|].
  assert (HP : ProcessImage W self p s =
    embed_and_label self im name b (after_detection (detector_blob small) s)).
  { rewrite <- Hr in Hi.
    rewrite (ProcessImage_unfold W self p s name im small Hn Hi Hs).
    fold d. rewrite Hsel. reflexivity. }
  split; [|split; [exact HP|]].
  - destruct (select_face_accepts d (cols im) (rows im) b H3 Hsel)
      as (i & Hlt & _ & _ & Hb).
    exists i. split; [exact Hlt|]. rewrite Hb, Hc, Hrows. reflexivity.
  - rewrite HP. apply In_events_after_embed.
Qed.

(** ** One image: what the state can and cannot influence *)

Lemma skips_app (a b : list event) : skips (a ++ b) = (skips a + skips b)%nat.
Proof.
  induction a as [|e a IH]; [reflexivity|].
  destruct e as [[]| | |]; cbn [app skips]; rewrite IH; reflexivity.
Qed.

(** [ProcessImage] returns a result that does not depend on the state it
    starts from, appends events that do not depend on it either, prints no
    failure line and writes no file. *)
Lemma ProcessImage_shape W self p :
  exists r evs, forall s,
    fst (ProcessImage W self p s) = r /\
    files (snd (ProcessImage W self p s)) = files s /\
    events (snd (ProcessImage W self p s)) = events s ++ evs /\
    skips evs = 0%nat.
Proof.
  destruct (index_neg2 (split (sep W) p)) as [nm|e] eqn:Hn.
  2:{ exists (Raise e), []. intros s.
      rewrite (ProcessImage_no_name _ _ _ _ _ Hn). cbn. now rewrite app_nil_r. }
  destruct (imutils_resize W (imread W p) 600) as [im|e] eqn:Hi.
  2:{ exists (Raise e), []. intros s.
      rewrite (ProcessImage_no_image _ _ _ _ _ _ Hn Hi). cbn. now rewrite app_nil_r. }
  destruct (cv2_resize W im 300 300) as [small|e] eqn:Hs.
  2:{ exists (Raise e), []. intros s.
      rewrite (ProcessImage_no_resize _ _ _ _ _ _ _ Hn Hi Hs). cbn.
      now rewrite app_nil_r. }
  pose proof (ProcessImage_unfold W self p) as U.
  destruct (select_face (detector self (detector_blob small)) (cols im) (rows im))
    as [[b|]|e] eqn:Hsel.
  - destruct b as [[[sx sy] ex] ey].
    destruct ((cols (crop im sy ey sx ex) <? 20)
              || (rows (crop im sy ey sx ex) <? 20))%nat eqn:G.
    + exists (Return None),
        [EvDetectorForward (detector_blob small); EvExtractEmbedding sx ex sy ey].
      intros s. rewrite (U s nm im small Hn Hi Hs), Hsel.
      pose proof (embed_and_label_run self im nm (sx, sy, ex, ey)
                    (after_detection (detector_blob small) s)) as R.
      cbn zeta in R. rewrite R, G. cbn. rewrite <- app_assoc. auto.
    + exists (Return (Some (embedder self (face_blob (crop im sy ey sx ex)), nm))),
        [EvDetectorForward (detector_blob small); EvExtractEmbedding sx ex sy ey;
         EvEmbedderForward (face_blob (crop im sy ey sx ex))].
      intros s. rewrite (U s nm im small Hn Hi Hs), Hsel.
      pose proof (embed_and_label_run self im nm (sx, sy, ex, ey)
                    (after_detection (detector_blob small) s)) as R.
      cbn zeta in R. rewrite R, G. cbn. rewrite <- !app_assoc. auto.
  - exists (Return None), [EvDetectorForward (detector_blob small)].
    intros s. rewrite (U s nm im small Hn Hi Hs), Hsel. cbn. auto.
  - exists (Raise e), [EvDetectorForward (detector_blob small)].
    intros s. rewrite (U s nm im small Hn Hi Hs), Hsel. cbn. auto.
Qed.

Lemma ProcessImage_outcome W self p s :
  fst (ProcessImage W self p s) = outcome W self p.
Proof.
  destruct (ProcessImage_shape W self p) as (r & evs & H).
  unfold outcome. destruct (H s) as [-> _]. destruct (H initial_state) as [-> _].
  reflexivity.
Qed.

Lemma ProcessImage_files W self p s :
  files (snd (ProcessImage W self p s)) = files s.
Proof.
  destruct (ProcessImage_shape W self p) as (r & evs & H).
  destruct (H s) as (_ & Hf & _). exact Hf.
Qed.

Lemma ProcessImage_skips W self p s :
  skips (events (snd (ProcessImage W self p s))) = skips (events s).
Proof.
  destruct (ProcessImage_shape W self p) as (r & evs & H).
  destruct (H s) as (_ & _ & He & Hz). rewrite He, skips_app, Hz. lia.
Qed.

(** ** The batch loop *)

Lemma collect_app rs1 rs2 :
  collect (rs1 ++ rs2) =
  rbind (collect rs1) (fun l1 => rbind (collect rs2) (fun l2 => Return (l1 ++ l2))).
Proof.
  induction rs1 as [|r rs1 IH]; cbn [app collect rbind].
  - destruct (collect rs2); reflexivity.
  - destruct r as [[[v nm]|]|e]; [|exact IH|reflexivity].
    rewrite IH. destruct (collect rs1) as [l1|e]; [|reflexivity]. cbn [rbind].
    destruct (collect rs2) as [l2|e]; reflexivity.
Qed.

Lemma collect_raises rs e :
  In (Raise e) rs -> exists e', collect rs = Raise e'.
Proof.
  induction rs as [|r rs IH]; intros H; [contradiction|].
  destruct H as [->|H].
  - exists e. reflexivity.
  - destruct (IH H) as [e' E]. cbn [collect].
    destruct r as [[[v nm]|]|e0].
    + rewrite E. exists e'. reflexivity.
    + exists e'. exact E.
    + exists e0. reflexivity.
Qed.

(** One iteration of the loop. *)
Lemma loop_cons W self n i p paths emb nm total s :
  loop W self n i (p :: paths) emb nm total s =
    match ProcessImage W self p (emitted (EvPrint (MsgProcessing (i + 1) n)) s) with
    | (Return (Some (vec, name)), s1) =>
        loop W self n (S i) paths (emb ++ [flatten vec]) (nm ++ [name])
          (total + 1) s1
    | (Return None, s1) =>
        loop W self n (S i) paths emb nm total (emitted (EvPrint (MsgFailed p)) s1)
    | (Raise e, s1) => (Raise e, s1)
    end.
Proof.
  cbn [loop]. unfold bind, print, emit. cbn [fst snd].
  fold (emitted (EvPrint (MsgProcessing (i + 1) n)) s).
  destruct (ProcessImage W self p _) as [[[[vec name]|]|e] s1]; reflexivity.
Qed.

(** The loop in closed form.  It writes no file; when every image yields a
    result it returns the accumulators extended by the collected pairs and
    has printed one failure line for each image that contributed nothing;
    otherwise it raises the first exception. *)
Lemma loop_spec W self n paths :
  forall i emb nm total s,
    files (snd (loop W self n i paths emb nm total s)) = files s /\
    match collect (map (outcome W self) paths) with
    | Return l =>
        fst (loop W self n i paths emb nm total s)
          = Return (emb ++ map fst l, nm ++ map snd l, (total + List.length l)%nat) /\
        (skips (events (snd (loop W self n i paths emb nm total s))) + List.length l
         = skips (events s) + List.length paths)%nat
    | Raise e => fst (loop W self n i paths emb nm total s) = Raise e
    end.
Proof.
  induction paths as [|p paths IH]; intros i emb nm total s.
  - cbn. rewrite !app_nil_r, !Nat.add_0_r. repeat split.
  - rewrite loop_cons. cbn [map collect].
    set (s0 := emitted (EvPrint (MsgProcessing (i + 1) n)) s).
    assert (Hs0 : skips (events s0) = skips (events s))
      by (subst s0; cbn; rewrite skips_app; cbn; lia).
    pose proof (ProcessImage_outcome W self p s0) as Ho.
    pose proof (ProcessImage_files W self p s0) as Hf.
    pose proof (ProcessImage_skips W self p s0) as Hk.
    destruct (ProcessImage W self p s0) as [r s1]. cbn [fst snd] in Ho, Hf, Hk.
    rewrite <- Ho. destruct r as [[[v name]|]|e].
    + specialize (IH (S i) (emb ++ [flatten v]) (nm ++ [name]) (total + 1)%nat s1).
      destruct IH as [IHf IH]. split; [rewrite IHf, Hf; reflexivity|].
      destruct (collect (map (outcome W self) paths)) as [l|e]; cbn [rbind].
      * destruct IH as [IHr IHk]. split.
        -- rewrite IHr. cbn [map fst snd List.length].
           rewrite <- !app_assoc. cbn [app]. do 2 f_equal. lia.
        -- cbn [List.length]. lia.
      * exact IH.
    + set (s2 := emitted (EvPrint (MsgFailed p)) s1).
      assert (Hs2 : skips (events s2) = S (skips (events s1)))
        by (subst s2; cbn; rewrite skips_app; cbn; lia).
      specialize (IH (S i) emb nm total s2).
      destruct IH as [IHf IH]. split; [rewrite IHf; subst s2; cbn; rewrite Hf; reflexivity|].
      destruct (collect (map (outcome W self) paths)) as [l|e].
      * destruct IH as [IHr IHk]. split; [exact IHr|]. cbn [List.length]. lia.
      * exact IH.
    + cbn [fst snd]. split; [rewrite Hf; reflexivity | reflexivity].
Qed.

(** Running the loop on [pre ++ post] is running it on [pre] and going on
    with [post] from the accumulators and the state reached. *)
Lemma loop_app W self n pre post :
  forall i emb nm total s,
    loop W self n i (pre ++ post) emb nm total s =
    match loop W self n i pre emb nm total s with
    | (Return (emb', nm', total'), s') =>
        loop W self n (i + List.length pre) post emb' nm' total' s'
    | (Raise e, s') => (Raise e, s')
    end.
Proof.
  induction pre as [|p pre IH]; intros i emb nm total s.
  - cbn. rewrite Nat.add_0_r. reflexivity.
  - cbn [app List.length]. rewrite !loop_cons.
    destruct (ProcessImage W self p _) as [[[[v name]|]|e] s1]; [| |reflexivity].
    + rewrite IH.
      replace (S i + List.length pre)%nat with (i + S (List.length pre))%nat by lia.
      reflexivity.
    + rewrite IH.
      replace (S i + List.length pre)%nat with (i + S (List.length pre))%nat by lia.
      reflexivity.
Qed.

(** [ProcessFolders] in closed form. *)
Lemma ProcessFolders_run W self d s :
  ProcessFolders W self d s =
    let paths := list_images W (_DATASET self) in
    match loop W self (List.length paths) 0 paths [] [] 1
            (emitted (EvPrint MsgQuantifying) s) with
    | (Return (emb, nm, total), s1) =>
        write_file W (_EMBEDDING_OUTPUT self) {| embeddings := emb; names := nm |}
          (emitted (EvPrint (MsgSerializing total)) s1)
    | (Raise e, s1) => (Raise e, s1)
    end.
Proof.
  unfold ProcessFolders. unfold bind at 1. unfold print at 1, emit at 1.
  cbn zeta. fold (emitted (EvPrint MsgQuantifying) s). unfold bind at 1.
  destruct (loop W self _ 0 _ [] [] 1 _) as [[[[emb nm] total]|e] s1]; reflexivity.
Qed.

(** The argument [imageFolder] is not read. *)
Lemma ProcessFolders_ignores_imageFolder W self d1 d2 s :
  ProcessFolders W self d1 s = ProcessFolders W self d2 s.
Proof. reflexivity. Qed.

(** ** Images that cannot be decoded *)

Lemma GetImage_undecodable W p s :
  imread W p = None -> GetImage W p s = (Raise AttributeError, s).
Proof. intros H. unfold GetImage, lift. rewrite H. reflexivity. Qed.

Lemma ProcessImage_undecodable W self p s :
  imread W p = None ->
  exists e, ProcessImage W self p s = (Raise e, s) /\
    ((exists name, index_neg2 (split (sep W) p) = Return name) -> e = AttributeError).
Proof.
  intros H.
  destruct (index_neg2 (split (sep W) p)) as [name|e] eqn:Hn.
  - exists AttributeError. split; [|reflexivity].
    apply (ProcessImage_no_image W self p s name); [exact Hn|].
    rewrite H. reflexivity.
  - exists e. split; [exact (ProcessImage_no_name W self p s e Hn)|].
    intros [name Hname]. discriminate Hname.
Qed.

(** ** The output of a completed run *)

Lemma read_file_written fs path data :
  read_file ((path, data) :: fs) path = Some data.
Proof. cbn. now rewrite String.eqb_refl. Qed.

(** A completed [ProcessFolders] in terms of the collected pairs. *)
Lemma ProcessFolders_completes W self d s :
  fst (ProcessFolders W self d s) = Return tt ->
  exists l,
    collect (map (outcome W self) (list_images W (_DATASET self))) = Return l /\
    files (snd (ProcessFolders W self d s)) =
      (_EMBEDDING_OUTPUT self, {| embeddings := map fst l; names := map snd l |})
        :: files s /\
    (List.length l + skips (events (snd (ProcessFolders W self d s)))
     = List.length (list_images W (_DATASET self)) + skips (events s))%nat /\
    can_open W (_EMBEDDING_OUTPUT self) = true.
Proof.
  rewrite ProcessFolders_run. cbn zeta. intros H.
  destruct (loop_spec W self (List.length (list_images W (_DATASET self)))
              (list_images W (_DATASET self)) 0%nat [] [] 1%nat
              (emitted (EvPrint MsgQuantifying) s)) as [Hf Hr].
  destruct (collect _) as [l|e].
  - exists l. split; [reflexivity|].
    destruct Hr as [Hr Hk].
    destruct (loop W self _ 0 _ [] [] 1 _) as [r s1]. cbn [fst snd] in Hf, Hr, Hk.
    subst r. cbn [app] in H |- *. unfold write_file in H |- *.
    destruct (can_open W (_EMBEDDING_OUTPUT self)); [|discriminate H].
    cbn [fst snd files events emitted] in Hk |- *.
    rewrite Hf. split; [reflexivity|]. split; [|reflexivity].
    rewrite skips_app. cbn [skips] in Hk |- *. rewrite skips_app in Hk.
    cbn [skips] in Hk. lia.
  - destruct (loop W self _ 0 _ [] [] 1 _) as [r s1]. cbn [fst] in Hr. subst r.
    discriminate H.
Qed.

(** C3: when [ProcessFolders] completes, the file it wrote holds two
    sequences of the same length, and this length plus the number of
    failure lines printed is the number of images discovered; the same
    holds after every prefix of the images, where the loop has two
    accumulators of equal length, that length plus the skips so far being
    the number of images seen so far. *)
Theorem output_lengths_agree W self d s :
  fst (ProcessFolders W self d s) = Return tt ->
  let paths := list_images W (_DATASET self) in
  let s' := snd (ProcessFolders W self d s) in
  let s0 := emitted (EvPrint MsgQuantifying) s in
  (exists data,
     read_file (files s') (_EMBEDDING_OUTPUT self) = Some data /\
     List.length (embeddings data) = List.length (names data) /\
     (List.length (embeddings data) + skips (events s')
      = List.length paths + skips (events s))%nat) /\
  (forall pre post, paths = pre ++ post ->
     exists emb nm total s1,
       loop W self (List.length paths) 0 pre [] [] 1 s0
         = (Return (emb, nm, total), s1) /\
       List.length emb = List.length nm /\
       (List.length emb + skips (events s1)
        = List.length pre + skips (events s))%nat /\
       loop W self (List.length paths) 0 paths [] [] 1 s0
         = loop W self (List.length paths) (List.length pre) post emb nm total s1).
Proof.
  intros H paths s' s0.
  destruct (ProcessFolders_completes W self d s H) as (l & Hc & Hfiles & Hk & _).
  fold paths in Hc, Hk. fold s' in Hfiles, Hk. split.
  - exists {| embeddings := map fst l; names := map snd l |}.
    rewrite Hfiles, read_file_written. cbn [embeddings names].
    rewrite !length_map. repeat split. exact Hk.
  - intros pre post E.
    rewrite E, map_app, collect_app in Hc.
    destruct (collect (map (outcome W self) pre)) as [l1|e] eqn:Hc1;
      [|discriminate Hc].
    destruct (loop_spec W self (List.length paths) pre 0%nat [] [] 1%nat s0)
      as [_ Hr].
    rewrite Hc1 in Hr. destruct Hr as [Hr Hk1].
    pose proof (loop_app W self (List.length paths) pre post 0%nat [] [] 1%nat s0)
      as Happ.
    destruct (loop W self (List.length paths) 0 pre [] [] 1 s0) as [r s1].
    cbn [fst snd] in Hr, Hk1. subst r. cbn [app] in Happ.
    exists (map fst l1), (map snd l1), (1 + List.length l1)%nat, s1.
    split; [reflexivity|]. split; [now rewrite !length_map|]. split.
    + rewrite length_map.
      assert (Hs0 : skips (events s0) = skips (events s))
        by (subst s0; cbn; rewrite skips_app; cbn; lia).
      lia.
    + rewrite E at 2. exact Happ.
Qed.

(** ** Images without an accepted face *)

(** C4: when the candidate [np.argmax] selects has a confidence of at most
    0.5, or the first axis of the detections is empty (the case line 179
    tests), [ProcessImage] returns None without raising, after one forward
    pass of the detector and none of the embedder; an image in which
    nothing is detected is such an image, the detector then returning rows
    of zero confidence. *)
Theorem no_confident_face_gives_None W self p s name im small :
  index_neg2 (split (sep W) p) = Return name ->
  imutils_resize W (imread W p) 600 = Return im ->
  cv2_resize W im 300 300 = Return small ->
  let d := detector self (detector_blob small) in
  (dim0 d = 0%nat
   \/ ((0 < dim1 d)%nat /\ (0 < dim2 d)%nat /\ (2 < dim3 d)%nat /\
       forall i, argmax (map (conf_of d) (seq 0 (dim2 d))) = Return i ->
                 (conf_of d i <= 1 # 2)%Q)) ->
  fst (ProcessImage W self p s) = Return None /\
  events (snd (ProcessImage W self p s))
    = events s ++ [EvDetectorForward (detector_blob small)] /\
  embedder_input (snd (ProcessImage W self p s)) = embedder_input s.
Proof.
  intros Hn Hi Hs d H.
  rewrite (ProcessImage_unfold W self p s name im small Hn Hi Hs). fold d.
  assert (Hsel : select_face d (cols im) (rows im) = Return None).
  { destruct (Nat.eq_dec (dim0 d) 0) as [Hz|Hnz].
    - unfold select_face. rewrite Hz. reflexivity.
    - destruct H as [H|(H1 & H2 & H3 & Hlow)]; [contradiction|].
      destruct (argmax_spec (map (conf_of d) (seq 0 (dim2 d))))
        as (i & Ha & Hlt & _).
      { destruct (dim2 d); [lia | discriminate]. }
      rewrite length_map, length_seq in Hlt.
      assert (H0' : (0 <? dim0 d)%nat = true) by (apply Nat.ltb_lt; lia).
      apply Nat.ltb_lt in H1, H3. pose proof Hlt as Hlt'. apply Nat.ltb_lt in Hlt'.
      unfold select_face, confidences. rewrite H0', H1, H3. cbn [andb rbind].
      fold (conf_of d). rewrite Ha. cbn [rbind].
      unfold GetConfidence. rewrite H0', H1, H3, Hlt'. cbn [andb rbind].
      fold (conf_of d i).
      assert (Hq : Qlt_bool (1 # 2) (conf_of d i) = false)
        by (apply Qlt_bool_false, Hlow, Ha).
      rewrite Hq. reflexivity. }
  rewrite Hsel. repeat split.
Qed.

(** ** Two runs over the same data set *)

(** The pairs collected from a reordered list of outcomes are the same
    pairs, reordered. *)
Lemma collect_Permutation rs rs' :
  Permutation rs rs' ->
  forall l, collect rs = Return l ->
  exists l', collect rs' = Return l' /\ Permutation l l'.
Proof.
  induction 1 as [|r rs rs' HP IH|r1 r2 rs|rs1 rs2 rs3 HP1 IH1 HP2 IH2]; intros l Hl.
  - exists l. split; [exact Hl|]. cbn in Hl. injection Hl as <-. constructor.
  - cbn [collect] in Hl |- *. destruct r as [[[v nm]|]|e].
    + destruct (collect rs) as [l0|e]; [|discriminate Hl].
      cbn [rbind] in Hl. injection Hl as <-.
      destruct (IH l0 eq_refl) as (l0' & -> & HP0).
      exists ((flatten v, nm) :: l0'). split; [reflexivity|]. now constructor.
    + exact (IH l Hl).
    + discriminate Hl.
  - cbn [collect] in Hl |- *.
    destruct r1 as [[[v1 n1]|]|e1], r2 as [[[v2 n2]|]|e2];
      try discriminate Hl;
      destruct (collect rs) as [l0|e]; try discriminate Hl;
      cbn [rbind] in Hl |- *; injection Hl as <-;
      eexists; (split; [reflexivity|]);
      try apply Permutation_refl.
    apply perm_swap.
  - destruct (IH1 l Hl) as (l2 & H2 & P2).
    destruct (IH2 l2 H2) as (l3 & H3 & P3).
    exists l3. split; [exact H3|]. eapply Permutation_trans; eassumption.
Qed.

(** Listing the directory plays no part in processing one image. *)
Lemma outcome_with_listing W ls self p :
  outcome (with_listing W ls) self p = outcome W self p.
Proof. reflexivity. Qed.

Lemma combine_map_fst_snd {A B : Type} (l : list (A * B)) :
  combine (map fst l) (map snd l) = l.
Proof.
  induction l as [|[a b] l IH]; [reflexivity|]. cbn. now rewrite IH.
Qed.

(** C9: with the two networks computing functions of their input, the
    result of [ProcessImage] on a path is the same whatever was processed
    before; and when a run of [ProcessFolders] completes, a run that
    discovers the same images in another order completes too and writes
    the same (embedding, name) pairs, in a possibly different order. *)
Theorem runs_agree_up_to_order W self ls d d' s s' :
  Permutation (list_images W (_DATASET self)) (ls (_DATASET self)) ->
  fst (ProcessFolders W self d s) = Return tt ->
  (forall p s1 s2,
     fst (ProcessImage W self p s1) = fst (ProcessImage W self p s2)) /\
  fst (ProcessFolders (with_listing W ls) self d' s') = Return tt /\
  exists data data',
    read_file (files (snd (ProcessFolders W self d s))) (_EMBEDDING_OUTPUT self)
      = Some data /\
    read_file (files (snd (ProcessFolders (with_listing W ls) self d' s')))
      (_EMBEDDING_OUTPUT self) = Some data' /\
    Permutation (combine (embeddings data) (names data))
                (combine (embeddings data') (names data')) /\
    (forall p v name,
       In p (list_images W (_DATASET self)) ->
       fst (ProcessImage W self p s) = Return (Some (v, name)) ->
       In (flatten v, name) (combine (embeddings data) (names data)) /\
       In (flatten v, name) (combine (embeddings data') (names data'))).
Proof.
  intros HP H. split.
  { intros p s1 s2. now rewrite !ProcessImage_outcome. }
  destruct (ProcessFolders_completes W self d s H) as (l & Hc & Hfiles & _ & Hopen).
  destruct (collect_Permutation _ _
              (Permutation_map (outcome W self) HP) l Hc) as (l' & Hc' & Pl).
  set (W' := with_listing W ls).
  assert (Hrun' :
    ProcessFolders W' self d' s' =
      (Return tt,
       {| detector_input :=
            detector_input (snd (ProcessFolders W' self d' s'));
          embedder_input :=
            embedder_input (snd (ProcessFolders W' self d' s'));
          events := events (snd (ProcessFolders W' self d' s'));
          files := (_EMBEDDING_OUTPUT self,
                    {| embeddings := map fst l'; names := map snd l' |})
                   :: files s' |})).
  { rewrite ProcessFolders_run. cbn zeta.
    change (list_images W' (_DATASET self)) with (ls (_DATASET self)).
    destruct (loop_spec W' self (List.length (ls (_DATASET self)))
                (ls (_DATASET self)) 0%nat [] [] 1%nat
                (emitted (EvPrint MsgQuantifying) s')) as [Hf Hr].
    change (outcome W' self) with (outcome W self) in Hr. rewrite Hc' in Hr.
    destruct Hr as [Hr _].
    destruct (loop W' self _ 0 _ [] [] 1 _) as [r s1]. cbn [fst snd] in Hf, Hr.
    subst r. cbn [app]. unfold write_file.
    change (can_open W' (_EMBEDDING_OUTPUT self))
      with (can_open W (_EMBEDDING_OUTPUT self)).
    rewrite Hopen. cbn [fst snd detector_input embedder_input events files emitted].
    rewrite Hf. reflexivity. }
  split; [rewrite Hrun'; reflexivity|].
  exists {| embeddings := map fst l; names := map snd l |},
         {| embeddings := map fst l'; names := map snd l' |}.
  rewrite Hfiles, read_file_written. rewrite Hrun' at 1.
  cbn [snd files]. rewrite read_file_written. cbn [embeddings names].
  rewrite !combine_map_fst_snd.
  split; [reflexivity|]. split; [reflexivity|]. split; [exact Pl|].
  intros p v name Hin Hp. rewrite ProcessImage_outcome in Hp.
  assert (Hl : In (flatten v, name) l).
  { clear - Hc Hin Hp. revert l Hc.
    induction (list_images W (_DATASET self)) as [|q qs IH]; intros l Hc;
      [contradiction|].
    cbn [map collect] in Hc. destruct Hin as [->|Hin].
    - rewrite Hp in Hc. destruct (collect (map (outcome W self) qs)) as [l0|e];
        [|discriminate Hc].
      cbn [rbind] in Hc. injection Hc as <-. left. reflexivity.
    - destruct (outcome W self q) as [[[v0 n0]|]|e]; [| |discriminate Hc].
      + destruct (collect (map (outcome W self) qs)) as [l0|e];
          [|discriminate Hc].
        cbn [rbind] in Hc. injection Hc as <-. right. apply (IH Hin l0 eq_refl).
      + apply (IH Hin l Hc). }
  split; [exact Hl|]. eapply Permutation_in; eassumption.
Qed.

(** ** The argument of [ProcessFolders] *)

(** C2, where the code departs from it: an extractor built for the data set
    ["data"] and asked to process the folder ["other"] processes the images
    of ["data"]; the only image of ["other"] is never read, and the call is
    indistinguishable from [ProcessFolders("data")]. *)
Theorem ProcessFolders_reads_DATASET :
  let W := Demo.world in
  let self := Demo.extractor "data" in
  let r := ProcessFolders W self "other" initial_state in
  list_images W "other" = ["other/carol/c1.png"%string] /\
  fst r = Return tt /\
  option_map names (read_file (files (snd r)) "out.pickle")
    = Some ["alice"; "bob"]%string /\
  announced (events (snd r)) = [1; 2; 3]%nat /\
  r = ProcessFolders W self "data" initial_state.
Proof.
  cbn zeta. split; [reflexivity|]. split; [vm_compute; reflexivity|].
  split; [vm_compute; reflexivity|]. split; [vm_compute; reflexivity|].
  apply ProcessFolders_ignores_imageFolder.
Qed.

(** ** The properties on the concrete world *)

(** An unreadable file in the middle of a data set of three: [ProcessImage]
    raises, the batch stops after announcing image 2 and nothing is written. *)
Lemma undecodable_image_counterexample :
  let W := Demo.world in
  let self := Demo.extractor "mixed" in
  let p := "mixed/bob/broken.png"%string in
  let r := ProcessFolders W self "mixed" initial_state in
  imread W p = None /\
  In p (list_images W "mixed") /\
  fst (ProcessImage W self p initial_state) = Raise AttributeError /\
  fst (ProcessImage W self p initial_state) <> Return None /\
  fst r = Raise AttributeError /\
  List.length (list_images W "mixed") = 3%nat /\
  announced (events (snd r)) = [1; 2]%nat /\
  files (snd r) = [].
Proof.
  cbn zeta. split; [reflexivity|]. split; [right; left; reflexivity|].
  split; [vm_compute; reflexivity|]. split; [vm_compute; discriminate|].
  split; [vm_compute; reflexivity|]. split; [reflexivity|].
  split; vm_compute; reflexivity.
Qed.

(** [output_lengths_agree] on a data set of three images, one of them skipped. *)
Lemma output_lengths_agree_witness :
  let W := Demo.world in
  let self := Demo.extractor "data" in
  let r := ProcessFolders W self "data" initial_state in
  fst r = Return tt /\
  exists data,
    read_file (files (snd r)) "out.pickle" = Some data /\
    List.length (embeddings data) = List.length (names data) /\
    (List.length (embeddings data) + skips (events (snd r)) = 3 + 0)%nat.
Proof.
  cbn zeta. split; [vm_compute; reflexivity|].
  destruct (output_lengths_agree Demo.world (Demo.extractor "data") "data"
              initial_state) as [H _]; [vm_compute; reflexivity|].
  exact H.
Defined.

(** [small_crop_is_rejected] on a face of 6 by 4 pixels and on one of 300 by 200. *)
Lemma small_crop_is_rejected_witness :
  let W := Demo.world in
  let self := Demo.extractor "data" in
  let tiny := "data/alice/tiny.png"%string in
  let a1 := "data/alice/a1.png"%string in
  (* a crop of 6 by 4 pixels *)
  shape (crop (Demo.resized tiny) 200 204 300 306) = (4, 6)%nat /\
  fst (ExtractEmbedding self (Demo.resized tiny) 300 306 200 204 initial_state)
    = Return None /\
  fst (ProcessImage W self tiny initial_state) = Return None /\
  List.length (events (snd (ProcessImage W self tiny initial_state))) = 2%nat /\
  (* a crop of 300 by 200 pixels *)
  shape (crop (Demo.resized a1) 100 300 150 450) = (200, 300)%nat /\
  fst (ExtractEmbedding self (Demo.resized a1) 150 450 100 300 initial_state)
    = Return (Some (Demo.embed (face_blob (crop (Demo.resized a1) 100 300 150 450)))).
Proof.
  cbn zeta.
  destruct (small_crop_is_rejected Demo.world (Demo.extractor "data")
              (Demo.resized "data/alice/tiny.png") 300 306 200 204)
    as [Hsmall _].
  destruct Hsmall as [HE HP]; [left; vm_compute; lia|].
  destruct (HP "data/alice/tiny.png"%string "alice"%string
              (Demo.small "data/alice/tiny.png") initial_state)
    as [HP1 HP2];
    [reflexivity | vm_compute; reflexivity | vm_compute; reflexivity
     | vm_compute; reflexivity |].
  destruct (small_crop_is_rejected Demo.world (Demo.extractor "data")
              (Demo.resized "data/alice/a1.png") 150 450 100 300)
    as [_ Hlarge].
  specialize (Hlarge ltac:(vm_compute; lia) initial_state).
  split; [vm_compute; reflexivity|].
  split; [exact (proj1 (HE initial_state))|].
  split; [exact HP1|].
  split; [rewrite HP2; reflexivity|].
  split; [vm_compute; reflexivity|].
  exact (proj1 Hlarge).
Defined.

(** [most_confident_candidate_is_selected] on three candidates, two of them tied. *)
Lemma most_confident_candidate_is_selected_witness :
  let W := Demo.world in
  let self := Demo.extractor "data" in
  let p := "data/alice/a1.png"%string in
  let d := Demo.detections p in
  (* confidences 0.3, 0.9, 0.9: the first 0.9 wins *)
  map (conf_of d) (seq 0 (dim2 d)) = [3 # 10; 9 # 10; 9 # 10] /\
  exists i,
    argmax (map (conf_of d) (seq 0 (dim2 d))) = Return i /\
    (i < dim2 d)%nat /\
    (forall j, (j < dim2 d)%nat -> (conf_of d j <= conf_of d i)%Q) /\
    (forall j, (j < i)%nat -> (conf_of d j < conf_of d i)%Q) /\
    ProcessImage W self p initial_state =
      if Qlt_bool (1 # 2) (conf_of d i)
      then embed_and_label self (Demo.resized p) "alice"
             (scaled_box d i (cols (Demo.resized p)) (rows (Demo.resized p)))
             (after_detection (detector_blob (Demo.small p)) initial_state)
      else (Return None, after_detection (detector_blob (Demo.small p)) initial_state).
Proof.
  cbn zeta. split; [vm_compute; reflexivity|].
  apply (most_confident_candidate_is_selected Demo.world (Demo.extractor "data")
           "data/alice/a1.png" initial_state "alice"
           (Demo.resized "data/alice/a1.png") (Demo.small "data/alice/a1.png")).
  - reflexivity.
  - vm_compute; reflexivity.
  - vm_compute; reflexivity.
  - vm_compute; lia.
  - vm_compute; lia.
  - vm_compute; lia.
  - vm_compute; lia.
Defined.

(** A file larger than 600 pixels: the box is scaled by the shape of the
    resized copy, not by the shape of the file. *)
Lemma box_scaled_by_original_counterexample :
  let W := Demo.world in
  let self := Demo.extractor "data" in
  let p := "data/alice/a1.png"%string in
  (* the file is 1200 pixels wide and 800 high, [GetImage] returns 600 by 400 *)
  option_map shape (imread W p) = Some (800, 1200)%nat /\
  shape (Demo.resized p) = (400, 600)%nat /\
  (* the box the original dimensions would give *)
  select_face (Demo.detections p) 1200 800 = Return (Some (300, 200, 900, 600)) /\
  (* the box [ProcessImage] crops at *)
  boxes (events (snd (ProcessImage W self p initial_state)))
    = [(150, 100, 450, 300)].
Proof.
  cbn zeta. repeat split; vm_compute; reflexivity.
Qed.

(** [box_is_scaled_by_resized_shape] on the same file. *)
Lemma box_is_scaled_by_resized_shape_witness :
  let W := Demo.world in
  let self := Demo.extractor "data" in
  let p := "data/alice/a1.png"%string in
  let d := Demo.detections p in
  cols (Demo.resized p) = 600%nat /\
  rows (Demo.resized p) = scaled_height W 800 1200 600 /\
  (exists i, (i < dim2 d)%nat /\
     (150, 100, 450, 300) = scaled_box d i 600 (scaled_height W 800 1200 600)) /\
  In (EvExtractEmbedding 150 450 100 300)
     (events (snd (ProcessImage W self p initial_state))).
Proof.
  cbn zeta.
  destruct (box_is_scaled_by_resized_shape Demo.world (Demo.extractor "data")
              "data/alice/a1.png" initial_state "alice"
              (Demo.flat_image 800 1200 1)
              (Demo.resized "data/alice/a1.png") (Demo.small "data/alice/a1.png")
              (150, 100, 450, 300))
    as (H1 & H2 & H3 & _ & H5).
  - reflexivity.
  - reflexivity.
  - vm_compute; reflexivity.
  - vm_compute; reflexivity.
  - vm_compute; lia.
  - vm_compute; reflexivity.
  - split; [exact H1|]. split; [exact H2|]. split; [exact H3|]. exact H5.
Defined.

(** [runs_agree_up_to_order] on a data set listed in two orders. *)
Lemma runs_agree_up_to_order_witness :
  let W := Demo.world in
  let W' := with_listing W (fun _ => Demo.listing "data2") in
  let self := Demo.extractor "data" in
  list_images W "data"
    = ["data/alice/a1.png"; "data/alice/a2.png"; "data/bob/b1.png"]%string /\
  list_images W' "data"
    = ["data/bob/b1.png"; "data/alice/a1.png"; "data/alice/a2.png"]%string /\
  fst (ProcessFolders W' self "data" initial_state) = Return tt /\
  exists data data',
    read_file (files (snd (ProcessFolders W self "data" initial_state))) "out.pickle"
      = Some data /\
    read_file (files (snd (ProcessFolders W' self "data" initial_state))) "out.pickle"
      = Some data' /\
    Permutation (combine (embeddings data) (names data))
                (combine (embeddings data') (names data')).
Proof.
  cbn zeta. split; [reflexivity|]. split; [reflexivity|].
  destruct (runs_agree_up_to_order Demo.world (Demo.extractor "data")
              (fun _ => Demo.listing "data2") "data" "data"
              initial_state initial_state)
    as (_ & H2 & data & data' & H3 & H4 & H5 & _).
  - apply Permutation_sym.
    exact (Permutation_cons_append
             ["data/alice/a1.png"; "data/alice/a2.png"]%string
             "data/bob/b1.png"%string).
  - vm_compute; reflexivity.
  - split; [exact H2|]. exists data, data'. auto.
Defined.

(** A box across the right border and an inverted box with a negative end:
    both are embedded. *)
Lemma ExtractEmbedding_outside_box_counterexample :
  let self := Demo.extractor "data" in
  let im := Demo.flat_image 400 600 5 in
  (* a box that ends 100 pixels beyond the right border *)
  let r1 := ExtractEmbedding self im 500 700 100 300 initial_state in
  (* an inverted box: endX <= startX *)
  let r2 := ExtractEmbedding self im 10 (-10) 100 300 initial_state in
  shape im = (400, 600)%nat /\
  fst r1 = Return (Some [[5; 200; 100]]%Q) /\
  List.length (filter is_embedder_forward (events (snd r1))) = 1%nat /\
  fst r2 = Return (Some [[5; 200; 580]]%Q) /\
  List.length (filter is_embedder_forward (events (snd r2))) = 1%nat.
Proof.
  cbn zeta. repeat split; vm_compute; reflexivity.
Qed.

(** [ExtractEmbedding_never_raises] on a degenerate and on an inverted box. *)
Lemma ExtractEmbedding_never_raises_witness :
  let self := Demo.extractor "data" in
  let im := Demo.flat_image 400 600 5 in
  (* degenerate on x, both bounds non-negative *)
  fst (ExtractEmbedding self im 300 300 100 300 initial_state) = Return None /\
  (* inverted on y, both bounds negative *)
  fst (ExtractEmbedding self im 100 300 (-5) (-50) initial_state) = Return None /\
  events (snd (ExtractEmbedding self im 100 300 (-5) (-50) initial_state))
    = [EvExtractEmbedding 100 300 (-5) (-50)].
Proof.
  cbn zeta.
  destruct (ExtractEmbedding_never_raises (Demo.extractor "data")
              (Demo.flat_image 400 600 5) 300 300 100 300 initial_state)
    as (_ & _ & H1 & _).
  destruct (ExtractEmbedding_never_raises (Demo.extractor "data")
              (Demo.flat_image 400 600 5) 100 300 (-5) (-50) initial_state)
    as (_ & _ & H2 & _).
  split; [apply H1; left; lia|].
  apply H2. right. lia.
Defined.

(** * Further properties of the methods *)

(** ** Traces *)

Lemma ProcessImage_trace W self p s :
  events (snd (ProcessImage W self p s)) = events s ++ trace W self p.
Proof.
  destruct (ProcessImage_shape W self p) as (r & evs & H). unfold trace.
  destruct (H s) as (_ & _ & -> & _).
  destruct (H initial_state) as (_ & _ & -> & _). reflexivity.
Qed.

(** The five ways an image can go, with the events of each. *)
Lemma outcome_trace_cases W self p :
  (exists e, outcome W self p = Raise e /\ trace W self p = []) \/
  (exists b e, outcome W self p = Raise e /\ trace W self p = [EvDetectorForward b]) \/
  (exists b, outcome W self p = Return None /\ trace W self p = [EvDetectorForward b]) \/
  (exists b sx ex sy ey,
     outcome W self p = Return None /\
     trace W self p = [EvDetectorForward b; EvExtractEmbedding sx ex sy ey]) \/
  (exists b sx ex sy ey fb name,
     outcome W self p = Return (Some (embedder self fb, name)) /\
     trace W self p = [EvDetectorForward b; EvExtractEmbedding sx ex sy ey;
                       EvEmbedderForward fb]).
Proof.
  unfold outcome, trace.
  destruct (index_neg2 (split (sep W) p)) as [nm|e] eqn:Hn.
  2:{ left. exists e. rewrite (ProcessImage_no_name _ _ _ _ _ Hn). auto. }
  destruct (imutils_resize W (imread W p) 600) as [im|e] eqn:Hi.
  2:{ left. exists e. rewrite (ProcessImage_no_image _ _ _ _ _ _ Hn Hi). auto. }
  destruct (cv2_resize W im 300 300) as [small|e] eqn:Hs.
  2:{ left. exists e. rewrite (ProcessImage_no_resize _ _ _ _ _ _ _ Hn Hi Hs). auto. }
  rewrite (ProcessImage_unfold W self p initial_state nm im small Hn Hi Hs).
  destruct (select_face (detector self (detector_blob small)) (cols im) (rows im))
    as [[b|]|e] eqn:Hsel.
  - pose proof (embed_and_label_run self im nm b
                  (after_detection (detector_blob small) initial_state)) as R.
    destruct b as [[[sx sy] ex] ey]. cbn zeta in R. rewrite R.
    destruct ((cols (crop im sy ey sx ex) <? 20)
              || (rows (crop im sy ey sx ex) <? 20))%nat.
    + right. right. right. left.
      exists (detector_blob small), sx, ex, sy, ey. split; reflexivity.
    + right. right. right. right.
      exists (detector_blob small), sx, ex, sy, ey,
        (face_blob (crop im sy ey sx ex)), nm. split; reflexivity.
  - right. right. left. exists (detector_blob small). split; reflexivity.
  - right. left. exists (detector_blob small), e. split; reflexivity.
Qed.

(** The events of the loop are those [loop_trace] lists. *)
Lemma loop_events W self n paths :
  forall i emb nm total s,
    events (snd (loop W self n i paths emb nm total s))
      = events s ++ loop_trace W self n i paths.
Proof.
  induction paths as [|p paths IH]; intros i emb nm total s.
  - cbn. now rewrite app_nil_r.
  - rewrite loop_cons. cbn [loop_trace].
    set (s0 := emitted (EvPrint (MsgProcessing (i + 1) n)) s).
    pose proof (ProcessImage_outcome W self p s0) as Ho.
    pose proof (ProcessImage_trace W self p s0) as Ht.
    destruct (ProcessImage W self p s0) as [r s1]. cbn [fst snd] in Ho, Ht.
    rewrite <- Ho. subst s0. cbn [events emitted] in Ht.
    destruct r as [[[v name]|]|e].
    + rewrite IH, Ht, <- !app_assoc. reflexivity.
    + rewrite IH. cbn [events emitted]. rewrite Ht, <- !app_assoc. reflexivity.
    + cbn [snd]. rewrite Ht, app_nil_r, <- !app_assoc. reflexivity.
Qed.

Lemma collect_flat_map rs l :
  collect rs = Return l -> l = flat_map contribution rs.
Proof.
  revert l. induction rs as [|r rs IH]; intros l H.
  - cbn in H. injection H as <-. reflexivity.
  - cbn [collect] in H. destruct r as [[[v nm]|]|e]; [| |discriminate H].
    + destruct (collect rs) as [l0|e]; [|discriminate H].
      cbn [rbind] in H. injection H as <-. cbn. f_equal. apply IH. reflexivity.
    + cbn. apply IH. exact H.
Qed.

Lemma collect_returns rs :
  Forall returns rs -> exists l, collect rs = Return l.
Proof.
  induction 1 as [|r rs Hr _ [l IH]]; [exists []; reflexivity|].
  destruct r as [[[v nm]|]|e]; [| |contradiction]; cbn [collect]; rewrite IH.
  - eexists; reflexivity.
  - eexists; reflexivity.
Qed.

Lemma collect_Return_returns rs l :
  collect rs = Return l -> Forall returns rs.
Proof.
  revert l. induction rs as [|r rs IH]; intros l H; [constructor|].
  cbn [collect] in H. destruct r as [[[v nm]|]|e]; [| |discriminate H].
  - destruct (collect rs) as [l0|e] eqn:E; [|discriminate H].
    constructor; [exact I | exact (IH l0 eq_refl)].
  - constructor; [exact I | exact (IH l H)].
Qed.

(** The first exception wins. *)
Lemma collect_first_raise pre e post :
  Forall returns pre -> collect (pre ++ Raise e :: post) = Raise e.
Proof.
  intros H. rewrite collect_app.
  destruct (collect_returns pre H) as [l ->]. reflexivity.
Qed.

Lemma successes_map W self paths :
  flat_map contribution (map (outcome W self) paths) = successes W self paths.
Proof.
  unfold successes. induction paths as [|p paths IH]; [reflexivity|].
  cbn. now rewrite IH.
Qed.

(** [ProcessFolders] in terms of the outcomes of the images: its result,
    the files and all the events. *)
Lemma ProcessFolders_outcome W self d s :
  let paths := list_images W (_DATASET self) in
  let r := ProcessFolders W self d s in
  let out := _EMBEDDING_OUTPUT self in
  match collect (map (outcome W self) paths) with
  | Raise e =>
      fst r = Raise e /\ files (snd r) = files s /\
      events (snd r) = events s ++ EvPrint MsgQuantifying
                         :: loop_trace W self (List.length paths) 0 paths
  | Return l =>
      events (snd r) = events s ++ EvPrint MsgQuantifying
                         :: loop_trace W self (List.length paths) 0 paths
                         ++ [EvPrint (MsgSerializing (1 + List.length l))] /\
      if can_open W out
      then fst r = Return tt /\
           files (snd r)
             = (out, {| embeddings := map fst l; names := map snd l |}) :: files s
      else fst r = Raise OSError /\ files (snd r) = files s
  end.
Proof.
  cbn zeta. rewrite ProcessFolders_run. cbn zeta.
  set (paths := list_images W (_DATASET self)).
  set (s0 := emitted (EvPrint MsgQuantifying) s).
  destruct (loop_spec W self (List.length paths) paths 0%nat [] [] 1%nat s0)
    as [Hf Hr].
  pose proof (loop_events W self (List.length paths) paths 0%nat [] [] 1%nat s0)
    as He.
  destruct (collect (map (outcome W self) paths)) as [l|e].
  - destruct Hr as [Hr _].
    destruct (loop W self _ 0 paths [] [] 1 s0) as [r s1].
    cbn [fst snd] in Hf, Hr, He. subst r. cbn [app]. unfold write_file.
    subst s0. cbn [events files emitted] in He, Hf.
    destruct (can_open W (_EMBEDDING_OUTPUT self));
      cbn [fst snd events files emitted]; rewrite He, Hf, <- !app_assoc;
      cbn [app]; auto.
  - destruct (loop W self _ 0 paths [] [] 1 s0) as [r s1].
    cbn [fst snd] in Hf, Hr, He. subst r. subst s0.
    cbn [events files emitted fst snd] in *. rewrite He, Hf, <- !app_assoc.
    cbn [app]. auto.
Qed.

(** ** Counting in the traces *)

Lemma announced_app (a b : list event) :
  announced (a ++ b) = announced a ++ announced b.
Proof.
  induction a as [|e a IH]; [reflexivity|].
  destruct e as [[]| | |]; cbn [app announced]; rewrite IH; reflexivity.
Qed.

(** One image prints no progress line; when it returns, the detector ran
    once and the embedder once for a pair, not at all for None. *)
Lemma trace_counts W self p :
  announced (trace W self p) = [] /\
  (returns (outcome W self p) ->
   List.length (filter is_detector_forward (trace W self p)) = 1%nat /\
   List.length (filter is_embedder_forward (trace W self p))
     = List.length (contribution (outcome W self p))).
Proof.
  destruct (outcome_trace_cases W self p)
    as [(e & -> & ->)|[(b & e & -> & ->)|[(b & -> & ->)
        |[(b & sx & ex & sy & ey & -> & ->)
         |(b & sx & ex & sy & ey & fb & name & -> & ->)]]]];
    cbn; split; try reflexivity; intros H; try contradiction; split; reflexivity.
Qed.

Lemma loop_trace_app W self n pre rest :
  Forall (fun q => returns (outcome W self q)) pre ->
  forall i,
    loop_trace W self n i (pre ++ rest)
      = loop_trace W self n i pre
        ++ loop_trace W self n (i + List.length pre) rest.
Proof.
  induction 1 as [|p pre Hp _ IH]; intros i.
  - cbn. now rewrite Nat.add_0_r.
  - cbn [app loop_trace List.length].
    replace (i + S (List.length pre))%nat with (S i + List.length pre)%nat by lia.
    destruct (outcome W self p) as [[[v nm]|]|e]; [| |contradiction];
      rewrite IH, <- ?app_assoc; reflexivity.
Qed.

(** The trace of a loop in which every image returns. *)
Lemma loop_trace_returns W self n paths :
  Forall (fun q => returns (outcome W self q)) paths ->
  forall i,
    announced (loop_trace W self n i paths) = seq (i + 1) (List.length paths) /\
    List.length (filter is_detector_forward (loop_trace W self n i paths))
      = List.length paths /\
    List.length (filter is_embedder_forward (loop_trace W self n i paths))
      = List.length (successes W self paths).
Proof.
  induction 1 as [|p paths Hp _ IH]; intros i; [repeat split|].
  destruct (trace_counts W self p) as [Ha Hc]. destruct (Hc Hp) as [Hd He].
  destruct (IH (S i)) as (IHa & IHd & IHe).
  replace (S i + 1)%nat with (S (i + 1)) in IHa by lia.
  cbn [loop_trace List.length successes flat_map].
  fold (successes W self paths).
  rewrite length_app, <- He.
  destruct (outcome W self p) as [[[v nm]|]|e]; [| |contradiction];
    cbn [announced filter is_detector_forward is_embedder_forward];
    rewrite announced_app, !filter_app, !length_app, Ha;
    cbn [announced filter is_detector_forward is_embedder_forward app];
    rewrite IHa, IHd, IHe, Hd; cbn [seq]; repeat split; lia.
Qed.

(** The trace of a loop that stops at the first exception. *)
Lemma loop_trace_raise W self n pre p post e :
  Forall (fun q => returns (outcome W self q)) pre ->
  outcome W self p = Raise e ->
  forall i,
    announced (loop_trace W self n i (pre ++ p :: post))
      = seq (i + 1) (S (List.length pre)).
Proof.
  intros Hpre Hp i.
  rewrite (loop_trace_app W self n pre (p :: post) Hpre), announced_app.
  destruct (loop_trace_returns W self n pre Hpre i) as (-> & _).
  cbn [loop_trace]. rewrite Hp, app_nil_r. cbn [announced].
  destruct (trace_counts W self p) as [-> _].
  rewrite seq_S. do 2 f_equal. lia.
Qed.

Lemma Forall_returns_map W self paths :
  Forall returns (map (outcome W self) paths) <->
  Forall (fun q => returns (outcome W self q)) paths.
Proof. rewrite Forall_map. reflexivity. Qed.

(** ** The output of a batch *)

(** The file a completed run wrote, in terms of [successes]. *)
Lemma ProcessFolders_written W self d s :
  fst (ProcessFolders W self d s) = Return tt ->
  exists data,
    read_file (files (snd (ProcessFolders W self d s))) (_EMBEDDING_OUTPUT self)
      = Some data /\
    embeddings data = map fst (successes W self (list_images W (_DATASET self))) /\
    names data = map snd (successes W self (list_images W (_DATASET self))) /\
    combine (embeddings data) (names data)
      = successes W self (list_images W (_DATASET self)).
Proof.
  intros H. pose proof (ProcessFolders_outcome W self d s) as P. cbn zeta in P.
  destruct (collect _) as [l|e] eqn:Hc.
  - destruct P as [_ P].
    destruct (can_open W (_EMBEDDING_OUTPUT self)).
    + destruct P as [_ Hf]. rewrite Hf, read_file_written.
      apply collect_flat_map in Hc. rewrite successes_map in Hc. subst l.
      eexists. split; [reflexivity|]. cbn [embeddings names].
      rewrite combine_map_fst_snd. repeat split.
    + destruct P as [P _]. rewrite P in H. discriminate H.
  - destruct P as [P _]. rewrite P in H. discriminate H.
Qed.

(** The pairs written are those of the successful images, in the order in
    which the images were discovered; embedding [k] and name [k] come from
    the same image. *)
Theorem output_follows_discovery_order W self d s :
  fst (ProcessFolders W self d s) = Return tt ->
  exists data,
    read_file (files (snd (ProcessFolders W self d s))) (_EMBEDDING_OUTPUT self)
      = Some data /\
    embeddings data = map fst (successes W self (list_images W (_DATASET self))) /\
    names data = map snd (successes W self (list_images W (_DATASET self))) /\
    combine (embeddings data) (names data)
      = successes W self (list_images W (_DATASET self)).
Proof. exact (ProcessFolders_written W self d s). Qed.

(** When a run completes. *)
Lemma ProcessFolders_Return_iff W self d s :
  fst (ProcessFolders W self d s) = Return tt <->
  Forall (fun q => returns (outcome W self q)) (list_images W (_DATASET self)) /\
  can_open W (_EMBEDDING_OUTPUT self) = true.
Proof.
  pose proof (ProcessFolders_outcome W self d s) as P. cbn zeta in P. split.
  - intros H. destruct (collect _) as [l|e] eqn:Hc.
    + destruct P as [_ P]. split.
      * apply Forall_returns_map. exact (collect_Return_returns _ _ Hc).
      * destruct (can_open W (_EMBEDDING_OUTPUT self)); [reflexivity|].
        destruct P as [P _]. rewrite P in H. discriminate H.
    + destruct P as [P _]. rewrite P in H. discriminate H.
  - intros [HF Ho]. apply Forall_returns_map in HF.
    destruct (collect_returns _ HF) as [l Hc]. rewrite Hc, Ho in P.
    exact (proj1 (proj2 P)).
Qed.

(** [ProcessFolders] completes exactly when every discovered image returns
    (a pair or None) and the output file can be opened. *)
Theorem ProcessFolders_completes_iff W self d s :
  fst (ProcessFolders W self d s) = Return tt <->
  Forall (fun q => returns (outcome W self q)) (list_images W (_DATASET self)) /\
  can_open W (_EMBEDDING_OUTPUT self) = true.
Proof. exact (ProcessFolders_Return_iff W self d s). Qed.

(** The exception of the first image that raises is the exception of
    [ProcessFolders]; the images after it are not even announced and no
    file is written. *)
Theorem first_failure_stops_the_batch W self d s pre p post e :
  list_images W (_DATASET self) = pre ++ p :: post ->
  Forall (fun q => returns (outcome W self q)) pre ->
  outcome W self p = Raise e ->
  fst (ProcessFolders W self d s) = Raise e /\
  files (snd (ProcessFolders W self d s)) = files s /\
  announced (events (snd (ProcessFolders W self d s)))
    = announced (events s) ++ seq 1 (S (List.length pre)).
Proof.
  intros E Hpre Hp.
  pose proof (ProcessFolders_outcome W self d s) as P. cbn zeta in P.
  rewrite E in P. rewrite map_app in P. cbn [map] in P. rewrite Hp in P.
  rewrite collect_first_raise in P by (apply Forall_returns_map; exact Hpre).
  destruct P as (P1 & P2 & P3). rewrite P1, P2, P3.
  split; [reflexivity|]. split; [reflexivity|].
  rewrite announced_app. cbn [announced].
  rewrite (loop_trace_raise W self _ pre p post e Hpre Hp 0%nat). reflexivity.
Qed.

(** The output file is opened only after the last image: when it cannot be
    opened, every image has been through the detector, and the run ends
    with OSError and writes nothing. *)
Theorem unwritable_output_fails_last W self d s :
  Forall (fun q => returns (outcome W self q)) (list_images W (_DATASET self)) ->
  can_open W (_EMBEDDING_OUTPUT self) = false ->
  fst (ProcessFolders W self d s) = Raise OSError /\
  files (snd (ProcessFolders W self d s)) = files s /\
  List.length (filter is_detector_forward (events (snd (ProcessFolders W self d s))))
    = (List.length (filter is_detector_forward (events s))
       + List.length (list_images W (_DATASET self)))%nat.
Proof.
  intros HF Ho.
  pose proof (ProcessFolders_outcome W self d s) as P. cbn zeta in P.
  destruct (collect_returns _ (proj2 (Forall_returns_map W self _) HF)) as [l Hc].
  rewrite Hc, Ho in P. destruct P as (Pe & Pr & Pf).
  split; [exact Pr|]. split; [exact Pf|].
  rewrite Pe, filter_app, length_app. f_equal.
  destruct (loop_trace_returns W self
              (List.length (list_images W (_DATASET self))) _ HF 0%nat)
    as (_ & Hd & _).
  cbn [filter is_detector_forward]. rewrite filter_app, length_app, Hd.
  cbn. lia.
Qed.

(** In a completed run the detector ran once for each discovered image and
    the embedder once for each embedding written: none is computed and
    dropped. *)
Theorem network_calls_of_a_run W self d s :
  fst (ProcessFolders W self d s) = Return tt ->
  exists data evs,
    read_file (files (snd (ProcessFolders W self d s))) (_EMBEDDING_OUTPUT self)
      = Some data /\
    events (snd (ProcessFolders W self d s)) = events s ++ evs /\
    List.length (filter is_detector_forward evs)
      = List.length (list_images W (_DATASET self)) /\
    List.length (filter is_embedder_forward evs) = List.length (embeddings data).
Proof.
  intros H. pose proof H as H'. apply ProcessFolders_Return_iff in H'.
  destruct H' as [HF Ho].
  destruct (ProcessFolders_written W self d s H) as (data & Hr & He & _).
  pose proof (ProcessFolders_outcome W self d s) as P. cbn zeta in P.
  destruct (collect_returns _ (proj2 (Forall_returns_map W self _) HF)) as [l Hc].
  rewrite Hc in P. destruct P as [Pe _].
  destruct (loop_trace_returns W self
              (List.length (list_images W (_DATASET self))) _ HF 0%nat)
    as (_ & Hd & Hm).
  exists data. eexists. split; [exact Hr|]. split; [exact Pe|].
  cbn [filter is_detector_forward is_embedder_forward].
  rewrite !filter_app, !length_app, Hd, Hm, He, length_map. cbn. split; lia.
Qed.

(** In a completed run the progress lines count 1, 2, ..., N, and the last
    line printed announces one encoding more than were written: the
    counter starts at 1. *)
Theorem progress_and_serializing_lines W self d s :
  fst (ProcessFolders W self d s) = Return tt ->
  exists data evs,
    read_file (files (snd (ProcessFolders W self d s))) (_EMBEDDING_OUTPUT self)
      = Some data /\
    events (snd (ProcessFolders W self d s))
      = events s ++ evs
        ++ [EvPrint (MsgSerializing (1 + List.length (embeddings data)))] /\
    announced evs = seq 1 (List.length (list_images W (_DATASET self))).
Proof.
  intros H. pose proof H as H'. apply ProcessFolders_Return_iff in H'.
  destruct H' as [HF Ho].
  pose proof (ProcessFolders_outcome W self d s) as P. cbn zeta in P.
  destruct (collect_returns _ (proj2 (Forall_returns_map W self _) HF)) as [l Hc].
  rewrite Hc, Ho in P. destruct P as (Pe & _ & Pf).
  destruct (loop_trace_returns W self
              (List.length (list_images W (_DATASET self))) _ HF 0%nat)
    as (Ha & _ & _).
  eexists.
  exists (EvPrint MsgQuantifying
          :: loop_trace W self (List.length (list_images W (_DATASET self))) 0
               (list_images W (_DATASET self))).
  rewrite Pf, read_file_written. split; [reflexivity|].
  cbn [embeddings]. rewrite length_map. split; [exact Pe|].
  cbn [announced]. exact Ha.
Qed.

(** A data set without images still gives an output file, holding two
    empty sequences. *)
Theorem empty_dataset_writes_empty_output W self d s :
  list_images W (_DATASET self) = [] ->
  can_open W (_EMBEDDING_OUTPUT self) = true ->
  fst (ProcessFolders W self d s) = Return tt /\
  read_file (files (snd (ProcessFolders W self d s))) (_EMBEDDING_OUTPUT self)
    = Some {| embeddings := []; names := [] |} /\
  events (snd (ProcessFolders W self d s))
    = events s ++ [EvPrint MsgQuantifying; EvPrint (MsgSerializing 1)].
Proof.
  intros E Ho.
  pose proof (ProcessFolders_outcome W self d s) as P. cbn zeta in P.
  rewrite E, Ho in P. cbn [map collect List.length loop_trace app Nat.add] in P.
  destruct P as (Pe & Pr & Pf).
  rewrite Pr, Pf, Pe, read_file_written. repeat split.
Qed.

(** Images do not influence one another: when the run over one list of
    images and the run over another both complete, so does the run over
    the two lists in a row, and its output is the first output followed by
    the second. *)
Theorem batches_concatenate W self pre post d s :
  let run := fun l => ProcessFolders (with_listing W (fun _ => l)) self d s in
  let out := fun l => read_file (files (snd (run l))) (_EMBEDDING_OUTPUT self) in
  fst (run pre) = Return tt ->
  fst (run post) = Return tt ->
  fst (run (pre ++ post)) = Return tt /\
  exists d1 d2,
    out pre = Some d1 /\ out post = Some d2 /\
    out (pre ++ post)
      = Some {| embeddings := embeddings d1 ++ embeddings d2;
                names := names d1 ++ names d2 |}.
Proof.
  cbn zeta. intros H1 H2.
  pose proof (proj1 (ProcessFolders_Return_iff _ _ _ _) H1) as [F1 Ho].
  pose proof (proj1 (ProcessFolders_Return_iff _ _ _ _) H2) as [F2 _].
  cbn [list_images with_listing] in F1, F2.
  assert (H12 : fst (ProcessFolders (with_listing W (fun _ => pre ++ post)) self d s)
                = Return tt).
  { apply ProcessFolders_Return_iff. split; [|exact Ho].
    cbn [list_images with_listing]. apply Forall_app. split; assumption. }
  split; [exact H12|].
  destruct (ProcessFolders_written _ _ _ _ H1) as (d1 & R1 & E1 & N1 & _).
  destruct (ProcessFolders_written _ _ _ _ H2) as (d2 & R2 & E2 & N2 & _).
  destruct (ProcessFolders_written _ _ _ _ H12) as (d12 & R12 & E12 & N12 & _).
  cbn [list_images with_listing] in E1, N1, E2, N2, E12, N12.
  exists d1, d2. split; [exact R1|]. split; [exact R2|].
  rewrite R12. f_equal. destruct d12 as [e12 n12]. cbn [embeddings names] in *.
  subst e12 n12. rewrite E1, N1, E2, N2.
  change (successes (with_listing W (fun _ => pre ++ post)) self (pre ++ post))
    with (successes W self (pre ++ post)).
  change (successes (with_listing W (fun _ => pre)) self pre)
    with (successes W self pre).
  change (successes (with_listing W (fun _ => post)) self post)
    with (successes W self post).
  unfold successes. rewrite flat_map_app, !map_app. reflexivity.
Qed.

(** ** One image *)

Lemma split_no_sep c s : contains c s = false -> split c s = [s].
Proof.
  induction s as [|a s IH]; [reflexivity|].
  cbn [contains split]. intros H. apply orb_false_iff in H. destruct H as [Ha Hs].
  rewrite Ha, (IH Hs). reflexivity.
Qed.

Lemma split_with_sep c s :
  contains c s = true -> (2 <= List.length (split c s))%nat.
Proof.
  induction s as [|a s IH]; [discriminate|].
  cbn [contains split]. intros H.
  destruct (Ascii.eqb a c).
  - cbn [List.length]. pose proof (split_nonempty c s).
    destruct (split c s); [congruence | cbn; lia].
  - cbn [orb] in H. specialize (IH H).
    destruct (split c s) as [|w ws]; cbn [List.length] in *; lia.
Qed.

Lemma index_neg2_long {A : Type} (l : list A) :
  (2 <= List.length l)%nat -> exists x, index_neg2 l = Return x.
Proof.
  intros H. unfold index_neg2.
  destruct (nth_error l (List.length l - 2)) as [x|] eqn:E.
  - exists x. destruct (Nat.leb_spec 2 (List.length l)); [reflexivity | lia].
  - apply nth_error_None in E. lia.
Qed.

(** A path without a separator has no parent component: [ProcessImage]
    raises IndexError at line 164, before the file is read and before any
    network runs; a path with a separator always has a label. *)
Theorem path_without_separator W self p s :
  (contains (sep W) p = false ->
     ProcessImage W self p s = (Raise IndexError, s)) /\
  (contains (sep W) p = true ->
     exists name, index_neg2 (split (sep W) p) = Return name).
Proof.
  split; intros H.
  - apply ProcessImage_no_name. rewrite (split_no_sep _ _ H). reflexivity.
  - apply index_neg2_long, split_with_sep, H.
Qed.






(** C1, where the code departs from it: for a file that cannot be decoded
    [cv2.imread] yields None, [GetImage] raises AttributeError and, no
    handler existing, so does [ProcessImage]; a data set that holds such a
    file makes [ProcessFolders] raise and write nothing, and when the
    images before it all return, the exception is this AttributeError and
    the images after it are never announced. *)
Theorem undecodable_image_aborts_the_batch W self d s p :
  imread W p = None ->
  fst (GetImage W p s) = Raise AttributeError /\
  (forall name, index_neg2 (split (sep W) p) = Return name ->
     ProcessImage W self p s = (Raise AttributeError, s)) /\
  (exists e, fst (ProcessImage W self p s) = Raise e) /\
  (In p (list_images W (_DATASET self)) ->
     exists e, fst (ProcessFolders W self d s) = Raise e /\
       files (snd (ProcessFolders W self d s)) = files s) /\
  (forall pre post,
     list_images W (_DATASET self) = pre ++ p :: post ->
     Forall (fun q => returns (outcome W self q)) pre ->
     contains (sep W) p = true ->
     fst (ProcessFolders W self d s) = Raise AttributeError /\
     files (snd (ProcessFolders W self d s)) = files s /\
     announced (events (snd (ProcessFolders W self d s)))
       = announced (events s) ++ seq 1 (S (List.length pre))).
Proof.
  intros H. split; [rewrite GetImage_undecodable by exact H; reflexivity|].
  split; [|split; [|split]].
  - intros name Hn. apply (ProcessImage_no_image W self p s name); [exact Hn|].
    rewrite H. reflexivity.
  - destruct (ProcessImage_undecodable W self p s H) as (e & -> & _).
    exists e. reflexivity.
  - intros Hin.
    destruct (ProcessImage_undecodable W self p initial_state H) as (e & He & _).
    assert (Ho : outcome W self p = Raise e) by (unfold outcome; now rewrite He).
    destruct (collect_raises (map (outcome W self) (list_images W (_DATASET self))) e)
      as [e' He'].
    { rewrite <- Ho. apply in_map. exact Hin. }
    pose proof (ProcessFolders_outcome W self d s) as P. cbn zeta in P.
    rewrite He' in P. destruct P as (P1 & P2 & _).
    exists e'. split; assumption.
  - intros pre post E Hpre Hsep.
    destruct (index_neg2_long (split (sep W) p) (split_with_sep _ _ Hsep))
      as [name Hn].
    assert (Ho : outcome W self p = Raise AttributeError).
    { unfold outcome.
      rewrite (ProcessImage_no_image W self p initial_state name AttributeError Hn);
        [reflexivity | rewrite H; reflexivity]. }
    pose proof (ProcessFolders_outcome W self d s) as P. cbn zeta in P.
    rewrite E in P. rewrite map_app in P. cbn [map] in P. rewrite Ho in P.
    rewrite collect_first_raise in P by (apply Forall_returns_map; exact Hpre).
    destruct P as (P1 & P2 & P3). rewrite P1, P2, P3.
    split; [reflexivity|]. split; [reflexivity|].
    rewrite announced_app. cbn [announced].
    rewrite (loop_trace_raise W self _ pre p post AttributeError Hpre Ho 0%nat).
    reflexivity.
Qed.

(** An image [GetImage] returns is 600 pixels wide and not empty, so the
    resize to 300x300 for the detector cannot fail: once the image is
    loaded the detector always runs. *)
Theorem loaded_image_reaches_the_detector W p s im s' :
  GetImage W p s = (Return im, s') ->
  s' = s /\ cols im = 600%nat /\ (0 < rows im)%nat /\
  (exists im0, imread W p = Some im0 /\
     rows im = scaled_height W (rows im0) (cols im0) 600) /\
  exists small, cv2_resize W im 300 300 = Return small /\
    shape small = (300, 300)%nat.
Proof.
  unfold GetImage, lift. intros H. injection H as Hi <-.
  split; [reflexivity|].
  destruct (imread W p) as [im0|]; [|discriminate Hi].
  destruct (imutils_resize_shape W im0 600 im Hi) as [Hc Hr].
  assert (Hpos : (0 < rows im)%nat).
  { unfold imutils_resize, shape, cv2_resize in Hi.
    destruct (cols im0 =? 0)%nat; [discriminate|].
    destruct (rows im0 =? 0)%nat; [discriminate|]. cbn [orb Nat.eqb] in Hi.
    destruct (Nat.eqb_spec (scaled_height W (rows im0) (cols im0) 600) 0);
      [discriminate|].
    rewrite Hr. lia. }
  split; [exact Hc|]. split; [exact Hpos|].
  split; [exists im0; split; [reflexivity | exact Hr]|].
  unfold cv2_resize. rewrite Hc.
  destruct (Nat.eqb_spec (rows im) 0) as [Hz|_]; [lia|].
  cbn. eexists. split; reflexivity.
Qed.

(** What an accepted box tells about the confidences. *)
Lemma select_face_Some (d : tensor4) (w h : nat) (b : Z * Z * Z * Z) :
  select_face d w h = Return (Some b) ->
  exists i,
    (i < dim2 d)%nat /\
    (forall j, (j < dim2 d)%nat -> (conf_of d j <= conf_of d i)%Q) /\
    (1 # 2 < conf_of d i)%Q.
Proof.
  intros H. pose proof H as Hsel.
  assert (H0 : (0 < dim0 d)%nat).
  { unfold select_face in H.
    destruct (Nat.ltb_spec 0 (dim0 d)); [assumption|discriminate]. }
  unfold select_face in H. pose proof H0 as H0'. apply Nat.ltb_lt in H0'.
  rewrite H0' in H. unfold confidences in H. rewrite H0' in H. cbn [andb] in H.
  assert (H1 : (0 < dim1 d)%nat).
  { destruct (Nat.ltb_spec 0 (dim1 d)); [assumption|discriminate]. }
  assert (H3 : (2 < dim3 d)%nat).
  { destruct (0 <? dim1 d)%nat; [|discriminate]. cbn [andb] in H.
    destruct (Nat.ltb_spec 2 (dim3 d)); [assumption|discriminate]. }
  assert (H2 : (0 < dim2 d)%nat).
  { destruct ((0 <? dim1 d) && (2 <? dim3 d))%nat; [|discriminate].
    cbn [rbind] in H. destruct (dim2 d); [discriminate H | lia]. }
  clear H H0'.
  destruct (select_face_confidence d w h H0 H1 H2 H3) as (i & Hi & Hmax & _ & E).
  exists i. rewrite E in Hsel.
  destruct (Qlt_bool (1 # 2) (conf_of d i)) eqn:Eq; [|discriminate].
  apply Qlt_bool_true in Eq. auto.
Qed.

(** Every pair [ProcessImage] returns was made this way: the file decoded,
    the candidate of maximal confidence was above 0.5, and the vector is
    the embedder's output for a region of the 600-wide image that is at
    least 20 pixels wide and high and lies inside that image. *)
Theorem returned_embedding_comes_from_a_face W self p s v name :
  fst (ProcessImage W self p s) = Return (Some (v, name)) ->
  exists im0 im small i startX startY endX endY,
    imread W p = Some im0 /\
    GetImage W p s = (Return im, s) /\
    cv2_resize W im 300 300 = Return small /\
    let d := detector self (detector_blob small) in
    (i < dim2 d)%nat /\
    (forall j, (j < dim2 d)%nat -> (conf_of d j <= conf_of d i)%Q) /\
    (1 # 2 < conf_of d i)%Q /\
    select_face d (cols im) (rows im) = Return (Some (startX, startY, endX, endY)) /\
    let face := crop im startY endY startX endX in
    (20 <= cols face <= 600)%nat /\ (20 <= rows face <= rows im)%nat /\
    v = embedder self (face_blob face).
Proof.
  intros H.
  destruct (index_neg2 (split (sep W) p)) as [nm|e] eqn:Hn.
  2:{ rewrite (ProcessImage_no_name _ _ _ _ _ Hn) in H. discriminate H. }
  destruct (imutils_resize W (imread W p) 600) as [im|e] eqn:Hi.
  2:{ rewrite (ProcessImage_no_image _ _ _ _ _ _ Hn Hi) in H. discriminate H. }
  destruct (cv2_resize W im 300 300) as [small|e] eqn:Hs.
  2:{ rewrite (ProcessImage_no_resize _ _ _ _ _ _ _ Hn Hi Hs) in H. discriminate H. }
  rewrite (ProcessImage_unfold _ _ _ _ _ _ _ Hn Hi Hs) in H.
  destruct (select_face _ _ _) as [[b|]|e] eqn:Hsel; try discriminate H.
  pose proof (embed_and_label_run self im nm b
                (after_detection (detector_blob small) s)) as R.
  destruct b as [[[sx sy] ex] ey]. cbn zeta in R. rewrite R in H.
  destruct ((cols _ <? 20) || (rows _ <? 20))%nat eqn:G; [discriminate H|].
  cbn [fst] in H. injection H as <- _.
  apply guard_false_iff in G. destruct G as [Gc Gr].
  destruct (imread W p) as [im0|] eqn:Hr; [|discriminate Hi].
  destruct (imutils_resize_shape W im0 600 im Hi) as [Hc _].
  destruct (select_face_Some _ _ _ _ Hsel) as (i & Hlt & Hmax & Hconf).
  exists im0, im, small, i, sx, sy, ex, ey.
  split; [reflexivity|].
  split; [unfold GetImage, lift; rewrite Hr, Hi; reflexivity|].
  split; [exact Hs|]. cbn zeta.
  split; [exact Hlt|]. split; [exact Hmax|]. split; [exact Hconf|].
  split; [exact Hsel|].
  pose proof (slice_length_le (cols im) sx ex) as Lc.
  pose proof (slice_length_le (rows im) sy ey) as Lr.
  rewrite <- crop_cols with (startY := sy) (endY := ey) in Lc.
  rewrite <- crop_rows with (startX := sx) (endX := ex) in Lr.
  rewrite Hc in Lc. repeat split; assumption.
Qed.

(** With at least one candidate, a face is cropped exactly when some
    candidate has a confidence above 0.5; when none has, [ProcessImage]
    returns None after the detector ran, without raising. *)
Theorem face_is_cropped_iff_a_candidate_exceeds_half W self p s name im small :
  index_neg2 (split (sep W) p) = Return name ->
  imutils_resize W (imread W p) 600 = Return im ->
  cv2_resize W im 300 300 = Return small ->
  let d := detector self (detector_blob small) in
  (0 < dim0 d)%nat -> (0 < dim1 d)%nat -> (0 < dim2 d)%nat -> (7 <= dim3 d)%nat ->
  (boxes (trace W self p) <> [] <->
     exists j, (j < dim2 d)%nat /\ (1 # 2 < conf_of d j)%Q) /\
  ((forall j, (j < dim2 d)%nat -> (conf_of d j <= 1 # 2)%Q) ->
     ProcessImage W self p s
       = (Return None, after_detection (detector_blob small) s)).
Proof.
  intros Hn Hi Hs d H0 H1 H2 H3.
  destruct (select_face_argmax d (cols im) (rows im) H0 H1 H2 H3)
    as (i & Hlt & Hmax & _ & E).
  split.
  - unfold trace.
    rewrite (ProcessImage_unfold W self p initial_state name im small Hn Hi Hs).
    fold d. rewrite E.
    destruct (Qlt_bool (1 # 2) (conf_of d i)) eqn:Eq.
    + apply Qlt_bool_true in Eq. split; [intros _; exists i; auto|].
      intros _.
      pose proof (embed_and_label_run self im name
                    (scaled_box d i (cols im) (rows im))
                    (after_detection (detector_blob small) initial_state)) as R.
      destruct (scaled_box d i (cols im) (rows im)) as [[[sx sy] ex] ey].
      cbn zeta in R. rewrite R.
      destruct ((cols _ <? 20) || (rows _ <? 20))%nat; cbn; discriminate.
    + apply Qlt_bool_false in Eq. cbn. split; [congruence|].
      intros (j & Hj & Hc). exfalso.
      apply (Qlt_not_le _ _ Hc). eapply Qle_trans; [apply Hmax, Hj | exact Eq].
  - intros Hlow.
    rewrite (ProcessImage_unfold W self p s name im small Hn Hi Hs).
    fold d. rewrite E.
    assert (Hq : Qlt_bool (1 # 2) (conf_of d i) = false)
      by (apply Qlt_bool_false, Hlow, Hlt).
    rewrite Hq. reflexivity.
Qed.

(** ** Boxes and crops *)

Lemma slice_inside n start stop :
  0 <= start <= stop -> stop <= Z.of_nat n ->
  slice_range n start stop = (Z.to_nat start, Z.to_nat (stop - start)).
Proof.
  intros H1 H2. unfold slice_range, slice_index.
  destruct (Z.ltb_spec stop 0), (Z.ltb_spec start 0); try lia.
  rewrite !Z.min_l by lia. reflexivity.
Qed.

Lemma slice_wrapped_empty n start stop :
  start < 0 <= stop -> stop - start <= Z.of_nat n ->
  Z.to_nat (slice_index n stop - slice_index n start) = 0%nat.
Proof.
  intros H1 H2. unfold slice_index.
  destruct (Z.ltb_spec stop 0), (Z.ltb_spec start 0); lia.
Qed.

(** For a box inside the image the region has the size of the box and
    holds the pixels of the box, and it is rejected exactly when the box
    is under 20 pixels wide or high. *)
Theorem box_inside_the_image self im startX endX startY endY s :
  0 <= startX <= endX -> endX <= Z.of_nat (cols im) ->
  0 <= startY <= endY -> endY <= Z.of_nat (rows im) ->
  let face := crop im startY endY startX endX in
  shape face = (Z.to_nat (endY - startY), Z.to_nat (endX - startX)) /\
  (forall y x,
     px face y x = px im (Z.to_nat startY + y)%nat (Z.to_nat startX + x)%nat) /\
  (fst (ExtractEmbedding self im startX endX startY endY s) = Return None
   <-> endX - startX < 20 \/ endY - startY < 20).
Proof.
  intros Hx1 Hx2 Hy1 Hy2. cbn zeta.
  assert (Hshape : shape (crop im startY endY startX endX)
                   = (Z.to_nat (endY - startY), Z.to_nat (endX - startX))).
  { unfold shape, crop.
    rewrite (slice_inside _ _ _ Hy1 Hy2), (slice_inside _ _ _ Hx1 Hx2).
    reflexivity. }
  split; [exact Hshape|]. split.
  - intros y x. unfold crop.
    rewrite (slice_inside _ _ _ Hy1 Hy2), (slice_inside _ _ _ Hx1 Hx2).
    reflexivity.
  - pose proof (f_equal fst Hshape) as Hr. pose proof (f_equal snd Hshape) as Hc.
    cbn [fst snd shape] in Hr, Hc.
    assert (Hcase :
      (cols (crop im startY endY startX endX) < 20
       \/ rows (crop im startY endY startX endX) < 20)%nat
      \/ (20 <= cols (crop im startY endY startX endX)
          /\ 20 <= rows (crop im startY endY startX endX))%nat) by lia.
    destruct Hcase as [G|G].
    + rewrite ExtractEmbedding_small by exact G. cbn [fst].
      split; [intros _; lia | reflexivity].
    + rewrite ExtractEmbedding_large by exact G. cbn [fst].
      split; [discriminate | lia].
Qed.

(** A box that starts before the image (a negative start) and ends inside
    it is not clamped to the border: the negative bound counts from the
    far edge, the slice is empty and the face is dropped without running
    the embedder. *)
Theorem box_starting_before_the_image self im startX endX startY endY s :
  (startX < 0 <= endX /\ endX - startX <= Z.of_nat (cols im))
  \/ (startY < 0 <= endY /\ endY - startY <= Z.of_nat (rows im)) ->
  let face := crop im startY endY startX endX in
  (cols face = 0%nat \/ rows face = 0%nat) /\
  ExtractEmbedding self im startX endX startY endY s
    = (Return None, emitted (EvExtractEmbedding startX endX startY endY) s).
Proof.
  intros H. cbn zeta.
  assert (He : cols (crop im startY endY startX endX) = 0%nat
               \/ rows (crop im startY endY startX endX) = 0%nat).
  { rewrite crop_cols, crop_rows. destruct H as [[H1 H2]|[H1 H2]].
    - left. apply slice_wrapped_empty; assumption.
    - right. apply slice_wrapped_empty; assumption. }
  split; [exact He|]. apply ExtractEmbedding_small. lia.
Qed.

(** ** Construction *)

(** The constructor loads the detector from the two files of the
    [FaceDetector] directory, then the embedder; a detector that fails to
    load ends the construction before the embedder is announced, and a
    constructed object carries the arguments and the two loaded networks. *)
Theorem construction_loads_detector_then_embedder W Dataset Output FaceDetector Model s :
  let proto := join2 (sep W) FaceDetector "deploy.prototxt" in
  let weights :=
    join2 (sep W) FaceDetector "res10_300x300_ssd_iter_140000.caffemodel" in
  let r := __init__ W Dataset Output FaceDetector Model s in
  files (snd r) = files s /\
  (forall e, readNetFromCaffe W proto weights = Raise e ->
     fst r = Raise e /\ events (snd r) = events s ++ [EvPrint MsgLoadingDetector]) /\
  (forall det e, readNetFromCaffe W proto weights = Return det ->
     readNetFromTorch W Model = Raise e ->
     fst r = Raise e /\
     events (snd r)
       = events s ++ [EvPrint MsgLoadingDetector; EvPrint MsgLoadingRecognizer]) /\
  (forall self, fst r = Return self ->
     _DATASET self = Dataset /\ _EMBEDDING_OUTPUT self = Output /\
     readNetFromCaffe W proto weights = Return (detector self) /\
     readNetFromTorch W Model = Return (embedder self)).
Proof.
  cbn zeta. unfold __init__, bind, print, emit, lift, ret. cbn [fst snd].
  destruct (readNetFromCaffe W _ _) as [det|e1];
    destruct (readNetFromTorch W Model) as [emb|e2]; cbn [fst snd files events];
    (split; [reflexivity|]); (split; [|split]);
    try (intros; discriminate);
    try (intros e H; injection H as <-; split;
         [reflexivity | rewrite <- ?app_assoc; reflexivity]);
    try (intros det' e H H'; injection H' as <-; split;
         [reflexivity | rewrite <- ?app_assoc; reflexivity]);
    try (intros self H; injection H as <-; repeat split).
Qed.

(** ** The further properties on the concrete worlds *)

(** Three images, the second without a usable face: two pairs, in order. *)
Lemma output_follows_discovery_order_witness :
  exists data,
    read_file (files (snd (ProcessFolders Demo.world (Demo.extractor "data")
                             "data" initial_state))) "out.pickle" = Some data /\
    combine (embeddings data) (names data)
      = [([1; 200; 300]%Q, "alice"%string); ([6; 200; 300]%Q, "bob"%string)].
Proof.
  destruct (output_follows_discovery_order Demo.world (Demo.extractor "data")
              "data" initial_state) as (data & Hr & _ & _ & Hc);
    [vm_compute; reflexivity|].
  exists data. split; [exact Hr|]. rewrite Hc. vm_compute. reflexivity.
Defined.

(** The run over ["data"] completes, the run over ["mixed"] does not. *)
Lemma ProcessFolders_completes_iff_witness :
  Forall (fun q => returns (outcome Demo.world (Demo.extractor "data") q))
    (list_images Demo.world "data") /\
  fst (ProcessFolders Demo.world (Demo.extractor "mixed") "mixed" initial_state)
    <> Return tt.
Proof.
  split.
  - apply (proj1 (ProcessFolders_completes_iff Demo.world (Demo.extractor "data")
                    "data" initial_state)).
    vm_compute. reflexivity.
  - intros H.
    apply (proj1 (ProcessFolders_completes_iff Demo.world (Demo.extractor "mixed")
                    "mixed" initial_state)) in H.
    destruct H as [H _]. inversion H as [|? ? _ H']. inversion H' as [|? ? Hb _].
    vm_compute in Hb. exact Hb.
Defined.

(** The second of three images is not an image. *)
Lemma first_failure_stops_the_batch_witness :
  let r := ProcessFolders Demo.world (Demo.extractor "mixed") "mixed" initial_state in
  fst r = Raise AttributeError /\ files (snd r) = [] /\
  announced (events (snd r)) = [1; 2]%nat.
Proof.
  cbn zeta.
  apply (first_failure_stops_the_batch Demo.world (Demo.extractor "mixed") "mixed"
           initial_state ["mixed/bob/b1.png"%string] "mixed/bob/broken.png"%string
           ["mixed/bob/b2.png"%string] AttributeError).
  - reflexivity.
  - constructor; [vm_compute; exact I | constructor].
  - vm_compute. reflexivity.
Defined.

(** Three good images and an output directory that does not exist. *)
Lemma unwritable_output_fails_last_witness :
  let r := ProcessFolders Demo.world Edge.lost_output "data" initial_state in
  fst r = Raise OSError /\ files (snd r) = [] /\
  List.length (filter is_detector_forward (events (snd r))) = (0 + 3)%nat.
Proof.
  cbn zeta.
  apply (unwritable_output_fails_last Demo.world Edge.lost_output "data"
           initial_state).
  - change (list_images Demo.world (_DATASET Edge.lost_output))
      with ["data/alice/a1.png"; "data/alice/a2.png"; "data/bob/b1.png"]%string.
    constructor; [vm_compute; exact I|].
    constructor; [vm_compute; exact I|].
    constructor; [vm_compute; exact I|]. constructor.
  - reflexivity.
Defined.

Lemma network_calls_of_a_run_witness :
  let r := ProcessFolders Demo.world (Demo.extractor "data") "data" initial_state in
  exists data evs,
    read_file (files (snd r)) "out.pickle" = Some data /\
    events (snd r) = [] ++ evs /\
    List.length (filter is_detector_forward evs) = 3%nat /\
    List.length (filter is_embedder_forward evs) = List.length (embeddings data).
Proof.
  cbn zeta.
  apply (network_calls_of_a_run Demo.world (Demo.extractor "data") "data"
           initial_state).
  vm_compute. reflexivity.
Defined.

Lemma progress_and_serializing_lines_witness :
  let r := ProcessFolders Demo.world (Demo.extractor "data") "data" initial_state in
  exists data evs,
    read_file (files (snd r)) "out.pickle" = Some data /\
    events (snd r)
      = [] ++ evs ++ [EvPrint (MsgSerializing (1 + List.length (embeddings data)))] /\
    announced evs = [1; 2; 3]%nat.
Proof.
  cbn zeta.
  apply (progress_and_serializing_lines Demo.world (Demo.extractor "data") "data"
           initial_state).
  vm_compute. reflexivity.
Defined.

Lemma empty_dataset_writes_empty_output_witness :
  let r := ProcessFolders Demo.world (Demo.extractor "nothing") "nothing"
             initial_state in
  list_images Demo.world "nothing" = [] /\
  fst r = Return tt /\
  read_file (files (snd r)) "out.pickle" = Some {| embeddings := []; names := [] |} /\
  events (snd r) = [] ++ [EvPrint MsgQuantifying; EvPrint (MsgSerializing 1)].
Proof.
  cbn zeta. split; [reflexivity|].
  apply (empty_dataset_writes_empty_output Demo.world (Demo.extractor "nothing")
           "nothing" initial_state); reflexivity.
Defined.

Lemma path_without_separator_witness :
  ProcessImage Demo.world (Demo.extractor "data") "a1.png" initial_state
    = (Raise IndexError, initial_state) /\
  exists name, index_neg2 (split "/" "alice/a1.png") = Return name.
Proof.
  destruct (path_without_separator Demo.world (Demo.extractor "data")
              "a1.png" initial_state) as [H1 _].
  destruct (path_without_separator Demo.world (Demo.extractor "data")
              "alice/a1.png" initial_state) as [_ H2].
  split; [apply H1; reflexivity | apply H2; reflexivity].
Defined.

Lemma loaded_image_reaches_the_detector_witness :
  let im := Demo.resized "data/alice/a1.png" in
  cols im = 600%nat /\ (0 < rows im)%nat /\
  exists small, cv2_resize Demo.world im 300 300 = Return small /\
    shape small = (300, 300)%nat.
Proof.
  cbn zeta.
  destruct (loaded_image_reaches_the_detector Demo.world "data/alice/a1.png"
              initial_state (Demo.resized "data/alice/a1.png") initial_state)
    as (_ & H1 & H2 & _ & H3); [vm_compute; reflexivity|].
  auto.
Defined.

Lemma returned_embedding_comes_from_a_face_witness :
  let W := Demo.world in
  let self := Demo.extractor "data" in
  let p := "data/alice/a1.png"%string in
  exists im0 im small i startX startY endX endY,
    imread W p = Some im0 /\
    GetImage W p initial_state = (Return im, initial_state) /\
    cv2_resize W im 300 300 = Return small /\
    let d := detector self (detector_blob small) in
    (i < dim2 d)%nat /\
    (forall j, (j < dim2 d)%nat -> (conf_of d j <= conf_of d i)%Q) /\
    (1 # 2 < conf_of d i)%Q /\
    select_face d (cols im) (rows im) = Return (Some (startX, startY, endX, endY)) /\
    let face := crop im startY endY startX endX in
    (20 <= cols face <= 600)%nat /\ (20 <= rows face <= rows im)%nat /\
    [[1; 200; 300]]%Q = embedder self (face_blob face).
Proof.
  cbn zeta.
  apply (returned_embedding_comes_from_a_face Demo.world (Demo.extractor "data")
           "data/alice/a1.png" initial_state [[1; 200; 300]]%Q "alice").
  vm_compute. reflexivity.
Defined.

(** A photo whose only candidate has confidence 0.3. *)
Lemma face_is_cropped_iff_a_candidate_exceeds_half_witness :
  let W := Demo.world in
  let self := Demo.extractor "data" in
  let p := "data/alice/a2.png"%string in
  map (conf_of (Demo.detections p)) (seq 0 (dim2 (Demo.detections p))) = [3 # 10] /\
  fst (ProcessImage W self p initial_state) = Return None /\
  boxes (trace W self p) = [].
Proof.
  cbn zeta.
  destruct (face_is_cropped_iff_a_candidate_exceeds_half Demo.world
              (Demo.extractor "data") "data/alice/a2.png" initial_state "alice"
              (Demo.resized "data/alice/a2.png") (Demo.small "data/alice/a2.png"))
    as [_ H];
    [reflexivity | vm_compute; reflexivity | vm_compute; reflexivity
     | vm_compute; lia | vm_compute; lia | vm_compute; lia | vm_compute; lia |].
  split; [vm_compute; reflexivity|].
  split; [|vm_compute; reflexivity].
  rewrite H; [reflexivity|].
  intros j Hj. change (dim2 _) with 1%nat in Hj.
  replace j with 0%nat by lia. vm_compute. discriminate.
Defined.

Lemma box_inside_the_image_witness :
  let im := Demo.flat_image 400 600 5 in
  shape (crop im 100 300 150 450) = (200, 300)%nat /\
  (fst (ExtractEmbedding (Demo.extractor "data") im 150 450 100 300 initial_state)
     = Return None <-> 450 - 150 < 20 \/ 300 - 100 < 20).
Proof.
  cbn zeta.
  destruct (box_inside_the_image (Demo.extractor "data") (Demo.flat_image 400 600 5)
              150 450 100 300 initial_state) as (H1 & _ & H3);
    [lia | vm_compute; discriminate | lia | vm_compute; discriminate |].
  split; [exact H1 | exact H3].
Defined.

(** A face box that starts 6 pixels left of a 600-wide image. *)
Lemma box_starting_before_the_image_witness :
  ExtractEmbedding (Demo.extractor "data") (Demo.flat_image 400 600 5)
    (-6) 100 100 300 initial_state
  = (Return None, emitted (EvExtractEmbedding (-6) 100 100 300) initial_state).
Proof.
  apply (box_starting_before_the_image (Demo.extractor "data")
           (Demo.flat_image 400 600 5) (-6) 100 100 300 initial_state).
  left. split; [lia | vm_compute; discriminate].
Defined.

(** A detector directory that exists, and one that does not. *)
Lemma construction_loads_detector_then_embedder_witness :
  (exists self,
     fst (__init__ Edge.world "data" "out.pickle" "model" "openface.t7" initial_state)
       = Return self /\
     _DATASET self = "data"%string /\ _EMBEDDING_OUTPUT self = "out.pickle"%string) /\
  fst (__init__ Edge.world "data" "out.pickle" "nowhere" "openface.t7" initial_state)
    = Raise Cv2Error /\
  events (snd (__init__ Edge.world "data" "out.pickle" "nowhere" "openface.t7"
                 initial_state))
    = [] ++ [EvPrint MsgLoadingDetector].
Proof.
  destruct (construction_loads_detector_then_embedder Edge.world
              "data" "out.pickle" "model" "openface.t7" initial_state)
    as (_ & _ & _ & Hok).
  destruct (construction_loads_detector_then_embedder Edge.world
              "data" "out.pickle" "nowhere" "openface.t7" initial_state)
    as (_ & Hfail & _).
  split.
  - eexists. split; [reflexivity|].
    destruct (Hok _ eq_refl) as (H1 & H2 & _). split; [exact H1 | exact H2].
  - apply (Hfail Cv2Error). reflexivity.
Defined.

(** One image, then two more. *)
Lemma batches_concatenate_witness :
  let run := fun l =>
    ProcessFolders (with_listing Demo.world (fun _ => l)) (Demo.extractor "data")
      "data" initial_state in
  let out := fun l => read_file (files (snd (run l))) "out.pickle" in
  let pre := ["data/alice/a1.png"%string] in
  let post := ["data/alice/a2.png"; "data/bob/b1.png"]%string in
  fst (run (pre ++ post)) = Return tt /\
  exists d1 d2,
    out pre = Some d1 /\ out post = Some d2 /\
    out (pre ++ post)
      = Some {| embeddings := embeddings d1 ++ embeddings d2;
                names := names d1 ++ names d2 |}.
Proof.
  cbn zeta.
  apply (batches_concatenate Demo.world (Demo.extractor "data")
           ["data/alice/a1.png"%string]
           ["data/alice/a2.png"; "data/bob/b1.png"]%string "data" initial_state);
    vm_compute; reflexivity.
Defined.

(** ** Undecodable files, weak faces and labels on the concrete worlds *)

(** The second of three files is not an image: the batch raises the
    AttributeError of that file, the third file is never announced. *)
Lemma undecodable_image_aborts_the_batch_witness :
  let W := Demo.world in
  let self := Demo.extractor "mixed" in
  let r := ProcessFolders W self "mixed" initial_state in
  imread W "mixed/bob/broken.png" = None /\
  list_images W "mixed"
    = ["mixed/bob/b1.png"; "mixed/bob/broken.png"; "mixed/bob/b2.png"]%string /\
  fst r = Raise AttributeError /\ files (snd r) = [] /\
  announced (events (snd r)) = [1; 2]%nat.
Proof.
  cbn zeta. split; [reflexivity|]. split; [reflexivity|].
  destruct (undecodable_image_aborts_the_batch Demo.world (Demo.extractor "mixed")
              "mixed" initial_state "mixed/bob/broken.png" eq_refl)
    as (_ & _ & _ & _ & H).
  apply (H ["mixed/bob/b1.png"%string] ["mixed/bob/b2.png"%string]).
  - reflexivity.
  - constructor; [vm_compute; exact I | constructor].
  - reflexivity.
Defined.

(** A photo whose best candidate has confidence 0.3, and a detector that
    keeps nothing and returns its 200 rows of zeros. *)
Lemma no_confident_face_gives_None_witness :
  let W := Demo.world in
  argmax (map (conf_of (Demo.detections "data/alice/a2.png"))
            (seq 0 (dim2 (Demo.detections "data/alice/a2.png")))) = Return 0%nat /\
  conf_of (Demo.detections "data/alice/a2.png") 0 = 3 # 10 /\
  fst (ProcessImage W (Demo.extractor "data") "data/alice/a2.png" initial_state)
    = Return None /\
  (dim0 Edge.nothing_kept, dim1 Edge.nothing_kept,
   dim2 Edge.nothing_kept, dim3 Edge.nothing_kept) = (1, 1, 200, 7)%nat /\
  fst (ProcessImage W Edge.blind "data/alice/a1.png" initial_state) = Return None /\
  embedder_input (snd (ProcessImage W Edge.blind "data/alice/a1.png" initial_state))
    = None.
Proof.
  cbn zeta. split; [vm_compute; reflexivity|]. split; [vm_compute; reflexivity|].
  destruct (no_confident_face_gives_None Demo.world (Demo.extractor "data")
              "data/alice/a2.png" initial_state "alice"
              (Demo.resized "data/alice/a2.png") (Demo.small "data/alice/a2.png"))
    as (H1 & _ & _);
    [reflexivity | vm_compute; reflexivity | vm_compute; reflexivity | |].
  { right. split; [vm_compute; lia|]. split; [vm_compute; lia|].
    split; [vm_compute; lia|].
    intros i Hi. vm_compute in Hi. injection Hi as <-. vm_compute. discriminate. }
  destruct (no_confident_face_gives_None Demo.world Edge.blind
              "data/alice/a1.png" initial_state "alice"
              (Demo.resized "data/alice/a1.png") (Demo.small "data/alice/a1.png"))
    as (H2 & _ & H3);
    [reflexivity | vm_compute; reflexivity | vm_compute; reflexivity | |].
  { right. split; [vm_compute; lia|]. split; [vm_compute; lia|].
    split; [vm_compute; lia|].
    intros i Hi. vm_compute in Hi. injection Hi as <-. vm_compute. discriminate. }
  split; [exact H1|]. split; [vm_compute; reflexivity|].
  split; [exact H2 | exact H3].
Defined.



(** A candidate whose box ends far beyond what a 64-bit integer holds: the
    conversion gives the smallest int64, the slice is empty and the image
    yields None. *)
Lemma box_beyond_int64_is_dropped :
  let huge := Demo.tensor_of_rows [[0; 1; 3 # 4; 0; 0; 2 ^ 60; 1 # 2]]%Q in
  scaled_box huge 0 600 400 = (0, 0, int64_min, 200) /\
  select_face huge 600 400 = Return (Some (0, 0, int64_min, 200)) /\
  fst (ExtractEmbedding (Demo.extractor "data") (Demo.flat_image 400 600 1)
         0 int64_min 0 200 initial_state) = Return None.
Proof.
  cbn zeta. repeat split; vm_compute; reflexivity.
Qed.
